(** * dbt-superset: the push-descriptions reconciliation core

    A shallow embedding of [dbt_superset/superset_api.py] and
    [dbt_superset/push_descriptions.py].

    Python objects are modelled as follows.
    - JSON documents of a fixed shape are records; a key that the code tests
      for presence is an [option] field ([None] = key absent or JSON null).
    - The [dataset] dict, which the code extends key by key, is a record
      whose late keys are [option] fields; reading a missing key raises
      [KeyError].
    - [set] and lookup-only [dict]s are [gset] and [gmap]; dicts that the code
      iterates are association lists in insertion order.
    - Effects (HTTP traffic, sleeping, the session's tokens, files) are
      threaded through a state-and-exception monad [M] over [World]. *)

From Stdlib Require Import ZArith String Lia Permutation.
From stdpp Require Import base option list gmap strings pretty sorting.

Local Open Scope string_scope.
Local Open Scope Z_scope.
Local Open Scope list_scope.

(** ** Exceptions and the state monad *)

Inductive exn : Type :=
| HTTPError (status_code : Z)
| AssertionError (msg : string)
| KeyError (key : string)
| NameError (name : string)
| TypeError
| ValueError
| FileNotFoundError (path : string).

(** Outcome of running a computation: a value, a raised exception, or
    [OutOfFuel] when a [while True] loop was cut off by its iteration bound. *)
Inductive Res (A : Type) : Type :=
| Ok (a : A)
| Raise (e : exn)
| OutOfFuel.
Arguments Ok {A} a.
Arguments Raise {A} e.
Arguments OutOfFuel {A}.

(** ** JSON shapes exchanged with Superset *)

(** One entry of [GET /dataset/]'s [result] list. *)
Module RawDataset.
Record t : Type := mk {
  kind : string;
  database_id : Z;          (* r['database']['id'] *)
  id : Z;
  table_name : string;
  schema : option string    (* JSON null is Python's None *)
}.
End RawDataset.

(** One entry of [GET /dataset/{id}]'s [result['columns']]. *)
Module SstColumn.
Record t : Type := mk {
  column_name : string;
  id : Z;
  description : option string;
  expression : option string
}.
End SstColumn.

Module Owner.
Record t : Type := mk { id : Z }.
End Owner.

(** The dicts [{'column_name', 'id', 'description'}] built by
    [merge_columns_info] and [put_descriptions_to_superset]. *)
Module ColumnNew.
Record t : Type := mk {
  column_name : string;
  id : Z;
  description : option string
}.
#[global] Instance eq_dec : EqDecision t.
Proof. solve_decision. Defined.
End ColumnNew.

Module DatasetDetail.
Record t : Type := mk {
  columns : list SstColumn.t;
  description : option string;
  owners : list Owner.t
}.
End DatasetDetail.

Inductive ResultValue : Type :=
| ResultList (l : list RawDataset.t)
| ResultDetail (d : DatasetDetail.t).

(** A parsed response body ([res.json()]); [None] = key absent. *)
Module Body.
Record t : Type := mk {
  msg : option string;
  access_token : option string;
  refresh_token : option string;
  result : option ResultValue
}.
Definition empty : t := mk None None None None.
End Body.

Module Response.
Record t : Type := mk { status_code : Z; json : Body.t }.
End Response.

(** The [json=] payloads the code sends. *)
Inductive JsonPayload : Type :=
| AuthPayload (username password : option string) (provider : string) (refresh : bool)
| WritePayload (description : option string) (columns : list ColumnNew.t) (owners : list Z).

(** [{'q': json.dumps({'page': .., 'page_size': ..})}], kept structured. *)
Module Params.
Record t : Type := mk { page : nat; page_size : Z }.
End Params.

(** [**request_kwargs] *)
Module Kwargs.
Record t : Type := mk { params : option Params.t; json : option JsonPayload }.
Definition none : t := mk None None.
End Kwargs.

(** What [requests.request] puts on the wire. *)
Module HttpRequest.
Record t : Type := mk {
  method : string;
  url : string;
  headers : gmap string string;
  kwargs : Kwargs.t
}.
End HttpRequest.

(** One invocation of [Superset.request], as its first [logger.info] line
    records it. *)
Module ApiCall.
Record t : Type := mk {
  method : string;
  endpoint : string;
  kwargs : Kwargs.t
}.
End ApiCall.

(** The remote side: a deterministic function of the requests seen so far
    (oldest first) and the current one. *)
Definition Server : Type := list HttpRequest.t → HttpRequest.t → Response.t.

(** ** dbt artifacts *)

(** A column entry of the manifest; [description = None] = key absent. *)
Module DbtColumn.
Record t : Type := mk { description : option string }.
End DbtColumn.

(** A manifest table (an entry of [nodes] or [sources]). *)
Module ManifestTable.
Record t : Type := mk {
  name : string;
  schema : string;
  database : string;
  columns : gmap string DbtColumn.t;
  description : option string
}.
End ManifestTable.

Module Manifest.
Record t : Type := mk {
  nodes : list (string * ManifestTable.t);
  sources : list (string * ManifestTable.t)
}.
End Manifest.

(** A catalog table: [metadata.name] and the names of [columns], in order. *)
Module CatalogTable.
Record t : Type := mk { metadata_name : string; columns : list string }.
End CatalogTable.

Module Catalog.
Record t : Type := mk {
  nodes : list (string * CatalogTable.t);
  sources : list (string * CatalogTable.t)
}.
End Catalog.

(** An entry of the default-descriptions YAML; [desc = None] = key absent. *)
Module DefaultCol.
Record t : Type := mk { desc : option string }.
End DefaultCol.

(** The YAML document: top-level key → (column name → entry).  Only the key
    ["columns"] is ever read. *)
Abbreviation DefaultDescriptions := (gmap string (gmap string DefaultCol.t)).

(** The values of [get_tables_from_dbt]'s result dict. *)
Module Table.
Record t : Type := mk {
  columns : gmap string DbtColumn.t;
  description : option string
}.
End Table.

Inductive File : Type :=
| FManifest (m : Manifest.t)
| FCatalog (c : Catalog.t)
| FYaml (d : DefaultDescriptions).

(** ** The session object and the world *)

Module Superset.
Record t : Type := mk {
  api_url : string;
  username : option string;
  password : option string;
  access_token : option string;
  refresh_token : option string
}.
End Superset.

(** [session] is the run's one [Superset] object (mutated in place by login
    and refresh); [wire] lists the HTTP requests sent, oldest first; [calls]
    the invocations of [Superset.request]; [slept] the arguments of
    [time.sleep]; [fs] the files by path. *)
Module World.
Record t : Type := mk {
  session : Superset.t;
  wire : list HttpRequest.t;
  calls : list ApiCall.t;
  slept : list Z;
  fs : gmap string File
}.
End World.

Definition M (A : Type) : Type := World.t → Res A * World.t.

Definition ret {A} (a : A) : M A := λ w, (Ok a, w).
Definition raise {A} (e : exn) : M A := λ w, (Raise e, w).
Definition out_of_fuel {A} : M A := λ w, (OutOfFuel, w).
Definition bind {A B} (m : M A) (k : A → M B) : M B :=
  λ w, match m w with
       | (Ok a, w') => k a w'
       | (Raise e, w') => (Raise e, w')
       | (OutOfFuel, w') => (OutOfFuel, w')
       end.

Declare Scope py_scope.
Delimit Scope py_scope with py.
Notation "'let*' x := m 'in' k" := (bind m (λ x, k))
  (at level 10, x name, m at level 100, k at level 200) : py_scope.
Notation "m ';;;' k" := (bind m (λ _, k))
  (at level 100, k at level 200, right associativity) : py_scope.
Local Open Scope py_scope.

(** [try: body  except HTTPError: handler] *)
Definition try_except_HTTPError {A} (body : M A) (handler : Z → M A) : M A :=
  λ w, match body w with
       | (Raise (HTTPError s), w') => handler s w'
       | r => r
       end.

(** [assert cond, msg] *)
Definition py_assert (cond : bool) (msg : string) : M unit :=
  if cond then ret tt else raise (AssertionError msg).

(** [d[key]] on an optional field *)
Definition subscript {A} (key : string) (o : option A) : M A :=
  match o with
  | Some a => ret a
  | None => raise (KeyError key)
  end.

Definition get_session : M Superset.t := λ w, (Ok (World.session w), w).
Definition set_session (s : Superset.t) : M unit :=
  λ w, (Ok tt, World.mk s (World.wire w) (World.calls w) (World.slept w) (World.fs w)).

(** ** [superset_api.py] *)

(** [requests.request(method, url, headers=.., **kwargs)]: the request goes on
    the wire and the server's answer comes back. *)
Definition requests_request (server : Server) (method url : string)
    (headers : gmap string string) (kwargs : Kwargs.t) : M Response.t :=
  λ w, let req := HttpRequest.mk method url headers kwargs in
       (Ok (server (World.wire w) req),
        World.mk (World.session w) (World.wire w ++ [req]) (World.calls w)
                 (World.slept w) (World.fs w)).

(** [res.raise_for_status()] *)
Definition raise_for_status (res : Response.t) : M unit :=
  if (400 <=? Response.status_code res) && (Response.status_code res <? 600)
  then raise (HTTPError (Response.status_code res))
  else ret tt.

(** The [logger.info("About to %s execute request ...")] line. *)
Definition log_call (method endpoint : string) (kwargs : Kwargs.t) : M unit :=
  λ w, (Ok tt,
        World.mk (World.session w) (World.wire w)
                 (World.calls w ++ [ApiCall.mk method endpoint kwargs])
                 (World.slept w) (World.fs w)).

Definition bearer (token : string) : string := "Bearer " +:+ token.

(** [Superset._headers]: [{'Authorization': .., **headers}], so an
    [Authorization] entry of [headers] wins. *)
Definition _headers (headers : gmap string string) : M (gmap string string) :=
  let* self := get_session in
  match Superset.access_token self with
  | None => ret headers
  | Some tok => ret (headers ∪ {[ "Authorization" := bearer tok ]})
  end.

Definition token_has_expired (b : Body.t) : bool :=
  bool_decide (Body.msg b = Some "Token has expired").

Section superset_api.
Variable server : Server.

(** [Superset.request], with the method it calls to refresh the token as a
    parameter: [_refresh_access_token] itself calls [request] with
    [refresh_token_if_needed=False], where that method is never reached. *)
Definition request_with (refresh_access_token : M bool)
    (method endpoint : string) (refresh_token_if_needed : bool)
    (headers : option (gmap string string)) (request_kwargs : Kwargs.t) : M Body.t :=
  log_call method endpoint request_kwargs;;;
  let headers := default ∅ headers in
  let* self := get_session in
  let url := Superset.api_url self +:+ endpoint in
  let* hs := _headers headers in
  let* res := requests_request server method url hs request_kwargs in
  let* res :=
    (if refresh_token_if_needed && (Response.status_code res =? 401)
        && token_has_expired (Response.json res)
     then
       let* refreshed := refresh_access_token in
       if (refreshed : bool)
       then let* hs := _headers headers in
            requests_request server method url hs Kwargs.none
       else ret res
     else ret res) in
  raise_for_status res;;;
  ret (Response.json res).

(** [Superset._refresh_access_token] *)
Definition _refresh_access_token : M bool :=
  let* self := get_session in
  match Superset.refresh_token self with
  | None => ret false
  | Some rt =>
      let* res := request_with (ret false) "POST" "/security/refresh" false
                    (Some {[ "Authorization" := bearer rt ]}) Kwargs.none in
      let* tok := subscript "access_token" (Body.access_token res) in
      let* self := get_session in
      set_session (Superset.mk (Superset.api_url self) (Superset.username self)
                     (Superset.password self) (Some tok) (Superset.refresh_token self));;;
      ret true
  end.

(** [Superset.request] *)
Definition request (method endpoint : string) (refresh_token_if_needed : bool)
    (headers : option (gmap string string)) (request_kwargs : Kwargs.t) : M Body.t :=
  request_with _refresh_access_token method endpoint refresh_token_if_needed
    headers request_kwargs.

(** [Superset._login] *)
Definition _login : M unit :=
  let* self := get_session in
  let auth_payload :=
    AuthPayload (Superset.username self) (Superset.password self) "db" true in
  let* res := request "POST" "/security/login" false None
                (Kwargs.mk None (Some auth_payload)) in
  let* at_ := subscript "access_token" (Body.access_token res) in
  let* self := get_session in
  set_session (Superset.mk (Superset.api_url self) (Superset.username self)
                 (Superset.password self) (Some at_) (Superset.refresh_token self));;;
  let* rt := subscript "refresh_token" (Body.refresh_token res) in
  let* self := get_session in
  set_session (Superset.mk (Superset.api_url self) (Superset.username self)
                 (Superset.password self) (Superset.access_token self) (Some rt)).

(** [Superset.__init__] *)
Definition Superset_init (api_url : string) (username password : option string) : M unit :=
  set_session (Superset.mk api_url username password None None);;;
  _login.
End superset_api.

(** ** [push_descriptions.py] *)

(** The [dataset] dict.  [get_datasets_from_superset] creates it with [id]
    and [key]; [add_superset_columns] sets [columns], [description] and
    [owners]; [merge_columns_info] sets the three [_new] keys.  An outer
    [None] is an absent key. *)
Module Dataset.
Record t : Type := mk {
  id : Z;
  key : string;
  columns : option (list SstColumn.t);
  description : option (option string);
  owners : option (list Owner.t);
  columns_new : option (list ColumnNew.t);
  description_new : option (option string);
  owners_new : option (list Z)
}.
End Dataset.

(** [f'{x}'] for a value that is a string or [None]. *)
Definition format_opt (o : option string) : string :=
  match o with
  | Some s => s
  | None => "None"
  end.

(** [if s:] for a value that is a string or [None]. *)
Definition truthy (o : option string) : bool :=
  match o with
  | Some s => negb (String.eqb s "")
  | None => false
  end.

(** [sub in s] on strings. *)
Definition str_in (sub s : string) : bool :=
  match String.index 0 sub s with
  | Some _ => true
  | None => false
  end.

Definition duplicate_dataset_msg (dataset_key : string) : string :=
  "Dataset " +:+ dataset_key +:+ " is a duplicate name (schema + table) "
  +:+ "across databases. "
  +:+ "This would result in incorrect matching between Superset and dbt. "
  +:+ "To fix this, remove duplicates or add the ``superset_db_id`` argument.".

Definition duplicate_table_msg (table_key_short : string) : string :=
  "Table " +:+ table_key_short +:+ " is a duplicate name (schema + table) "
  +:+ "across databases. "
  +:+ "This would result in incorrect matching between Superset and dbt. "
  +:+ "To fix this, remove duplicates or add the ``dbt_db_name`` argument.".

Definition dataset_key_of (r : RawDataset.t) : string :=
  format_opt (RawDataset.schema r) +:+ "." +:+ RawDataset.table_name r.

(** The filters of [get_datasets_from_superset]: the [if] on [kind] and the
    database id, then the [dataset_filter] test that ends in [continue]. *)
Definition passes_kind_db (superset_db_id : option Z) (r : RawDataset.t) : bool :=
  String.eqb (RawDataset.kind r) "physical"
  && match superset_db_id with
     | None => true
     | Some db => RawDataset.database_id r =? db
     end.

Definition skipped_by_filter (dataset_filter : option string) (dataset_key : string) : bool :=
  match dataset_filter with
  | Some f => truthy dataset_filter && negb (str_in f dataset_key)
  | None => false
  end.

(** The body of [for r in result], over the accumulators [datasets] and
    [datasets_keys]. *)
Fixpoint for_r_in_result (superset_db_id : option Z) (dataset_filter : option string)
    (result : list RawDataset.t) (datasets : list Dataset.t) (datasets_keys : gset string)
    : M (list Dataset.t * gset string) :=
  match result with
  | [] => ret (datasets, datasets_keys)
  | r :: result' =>
      if passes_kind_db superset_db_id r then
        let dataset_id := RawDataset.id r in
        let dataset_key := dataset_key_of r in
        if skipped_by_filter dataset_filter dataset_key then
          for_r_in_result superset_db_id dataset_filter result' datasets datasets_keys
        else
          let dataset_dict :=
            Dataset.mk dataset_id dataset_key None None None None None None in
          py_assert (bool_decide (dataset_key ∉ datasets_keys))
            (duplicate_dataset_msg dataset_key);;;
          for_r_in_result superset_db_id dataset_filter result'
            (datasets ++ [dataset_dict]) ({[ dataset_key ]} ∪ datasets_keys)
      else
        for_r_in_result superset_db_id dataset_filter result' datasets datasets_keys
  end.

(** [sorted(lst, key=lambda c: c["id"])]: Python's sort is stable, so this is
    the one sorted arrangement that keeps equal ids in their original
    order.  [insert_by_id c l] puts [c] before the first entry whose id is
    not smaller. *)
Fixpoint insert_by_id (c : ColumnNew.t) (l : list ColumnNew.t) : list ColumnNew.t :=
  match l with
  | [] => [c]
  | c' :: l' =>
      if ColumnNew.id c <=? ColumnNew.id c' then c :: c' :: l'
      else c' :: insert_by_id c l'
  end.

Definition sorted_by_id (lst : list ColumnNew.t) : list ColumnNew.t :=
  foldr insert_by_id [] lst.

Definition check_columns_equal (lst1 lst2 : list ColumnNew.t) : bool :=
  bool_decide (sorted_by_id lst1 = sorted_by_id lst2).

(** [time.sleep] *)
Definition time_sleep (secs : Z) : M unit :=
  if secs <? 0 then raise ValueError
  else λ w, (Ok tt,
             World.mk (World.session w) (World.wire w) (World.calls w)
                      (World.slept w ++ [secs]) (World.fs w)).

Definition pause_after_update (superset_pause_after_update : Z) : M unit :=
  if superset_pause_after_update =? 0 then ret tt
  else time_sleep superset_pause_after_update.

(** Files *)
Definition read_file (path : string) : M File :=
  λ w, match World.fs w !! path with
       | Some f => (Ok f, w)
       | None => (Raise (FileNotFoundError path), w)
       end.

Definition write_file (path : string) (f : File) : M unit :=
  λ w, (Ok tt,
        World.mk (World.session w) (World.wire w) (World.calls w)
                 (World.slept w) (<[ path := f ]> (World.fs w))).

(** [d[key]] and [d[key] = v] on a dict that the code iterates in order. *)
Fixpoint alist_get {A} (key : string) (d : list (string * A)) : option A :=
  match d with
  | [] => None
  | (k, v) :: d' => if String.eqb k key then Some v else alist_get key d'
  end.

Fixpoint alist_set {A} (key : string) (v : A) (d : list (string * A)) : list (string * A) :=
  match d with
  | [] => [(key, v)]
  | (k, v') :: d' =>
      if String.eqb k key then (k, v) :: d' else (k, v') :: alist_set key v d'
  end.

(** [default_descriptions.get('columns', {})] *)
Definition default_columns (default_descriptions : DefaultDescriptions)
    : gmap string DefaultCol.t :=
  default ∅ (default_descriptions !! "columns").

Section push_descriptions.
Variable server : Server.
(** [convert_markdown_to_plain_text] is built from the [markdown] and
    [bs4] packages; it is taken as a pure function on strings. *)
Variable convert_markdown_to_plain_text : string → string.

(** The [while True] loop of [get_datasets_from_superset]; the result is
    [datasets] at the [break]. *)
Fixpoint while_pages (fuel : nat) (superset_db_id : option Z)
    (dataset_filter : option string) (page_number : nat)
    (datasets : list Dataset.t) (datasets_keys : gset string) : M (list Dataset.t) :=
  match fuel with
  | O => out_of_fuel
  | S fuel' =>
      let payload := Kwargs.mk (Some (Params.mk page_number 100)) None in
      let* res := request server "GET" "/dataset/" true None payload in
      let* result := subscript "result" (Body.result res) in
      match result with
      | ResultList [] => ret datasets
      | ResultList result =>
          let* acc := for_r_in_result superset_db_id dataset_filter result
                        datasets datasets_keys in
          while_pages fuel' superset_db_id dataset_filter (S page_number)
            (fst acc) (snd acc)
      | ResultDetail _ => raise TypeError
      end
  end.

Definition get_datasets_from_superset (fuel : nat) (superset_db_id : option Z)
    (dataset_filter : option string) : M (list Dataset.t) :=
  let* datasets := while_pages fuel superset_db_id dataset_filter 0%nat [] ∅ in
  py_assert (bool_decide (datasets ≠ [])) "There are no datasets in Superset!";;;
  ret datasets.

(** The innermost loop of [update_dbt_with_default_desc], over the columns
    dict of one manifest table (which the loop both tests and extends). *)
Fixpoint for_catalog_column (default_column_descs : gmap string DefaultCol.t)
    (catalog_table_columns : list string)
    (manifest_table_columns : gmap string DbtColumn.t) : M (gmap string DbtColumn.t) :=
  match catalog_table_columns with
  | [] => ret manifest_table_columns
  | catalog_column :: rest =>
      match manifest_table_columns !! catalog_column,
            default_column_descs !! catalog_column with
      | None, Some dflt =>
          let* desc := subscript "desc" (DefaultCol.desc dflt) in
          for_catalog_column default_column_descs rest
            (<[ catalog_column := DbtColumn.mk (Some desc) ]> manifest_table_columns)
      | _, _ => for_catalog_column default_column_descs rest manifest_table_columns
      end
  end.

Fixpoint for_table_key_long (default_column_descs : gmap string DefaultCol.t)
    (catalog_subset : list (string * CatalogTable.t))
    (manifest_subset : list (string * ManifestTable.t))
    : M (list (string * ManifestTable.t)) :=
  match catalog_subset with
  | [] => ret manifest_subset
  | (table_key_long, catalog_table) :: rest =>
      let catalog_table_columns := CatalogTable.columns catalog_table in
      let* manifest_table := subscript table_key_long
                               (alist_get table_key_long manifest_subset) in
      let* cols := for_catalog_column default_column_descs catalog_table_columns
                     (ManifestTable.columns manifest_table) in
      for_table_key_long default_column_descs rest
        (alist_set table_key_long
           (ManifestTable.mk (ManifestTable.name manifest_table)
              (ManifestTable.schema manifest_table)
              (ManifestTable.database manifest_table)
              cols (ManifestTable.description manifest_table))
           manifest_subset)
  end.

Definition update_dbt_with_default_desc (dbt_manifest : Manifest.t)
    (dbt_catalog : Catalog.t) (default_descriptions : DefaultDescriptions)
    : M Manifest.t :=
  let default_column_descs := default_columns default_descriptions in
  let* nodes := for_table_key_long default_column_descs
                  (Catalog.nodes dbt_catalog) (Manifest.nodes dbt_manifest) in
  let* sources := for_table_key_long default_column_descs
                    (Catalog.sources dbt_catalog) (Manifest.sources dbt_manifest) in
  ret (Manifest.mk nodes sources).

(** The inner loop of [get_tables_from_dbt]. *)
Fixpoint for_table_in_subset (dbt_db_name : option string)
    (manifest_subset : list (string * ManifestTable.t))
    (tables : gmap string Table.t) : M (gmap string Table.t) :=
  match manifest_subset with
  | [] => ret tables
  | (_, table) :: rest =>
      let table_key_short :=
        ManifestTable.schema table +:+ "." +:+ ManifestTable.name table in
      let selected :=
        match dbt_db_name with
        | None => true
        | Some db => String.eqb (ManifestTable.database table) db
        end in
      if selected then
        py_assert (bool_decide (tables !! table_key_short = None))
          (duplicate_table_msg table_key_short);;;
        for_table_in_subset dbt_db_name rest
          (<[ table_key_short :=
                Table.mk (ManifestTable.columns table) (ManifestTable.description table) ]>
             tables)
      else for_table_in_subset dbt_db_name rest tables
  end.

Definition get_tables_from_dbt (dbt_manifest : Manifest.t) (dbt_db_name : option string)
    : M (gmap string Table.t) :=
  let* tables := for_table_in_subset dbt_db_name (Manifest.nodes dbt_manifest) ∅ in
  let* tables := for_table_in_subset dbt_db_name (Manifest.sources dbt_manifest) tables in
  py_assert (bool_decide (tables ≠ ∅)) "Manifest is empty!";;;
  ret tables.

Definition get_default_column_desc (default_descriptions_yaml_path : option string)
    : M DefaultDescriptions :=
  match default_descriptions_yaml_path with
  | Some path =>
      if truthy default_descriptions_yaml_path then
        let* f := read_file path in
        match f with
        | FYaml d => ret d
        | _ => raise TypeError
        end
      else ret ∅
  | None => ret ∅
  end.

Definition refresh_columns_in_superset (dataset_id : Z) : M unit :=
  request server "PUT" ("/dataset/" +:+ pretty dataset_id +:+ "/refresh") true None
    Kwargs.none;;;
  ret tt.

Definition add_superset_columns (dataset : Dataset.t) : M Dataset.t :=
  let* res := request server "GET" ("/dataset/" +:+ pretty (Dataset.id dataset)) true None
                Kwargs.none in
  let* result := subscript "result" (Body.result res) in
  match result with
  | ResultDetail result =>
      ret (Dataset.mk (Dataset.id dataset) (Dataset.key dataset)
             (Some (DatasetDetail.columns result))
             (Some (DatasetDetail.description result))
             (Some (DatasetDetail.owners result))
             (Dataset.columns_new dataset) (Dataset.description_new dataset)
             (Dataset.owners_new dataset))
  | ResultList _ => raise TypeError
  end.

(** The body of [for sst_column in sst_columns] in [merge_columns_info]:
    the [column_new] dict for one target column. *)
Definition column_new_of (dbt_columns : gmap string DbtColumn.t)
    (default_column_descs : gmap string DefaultCol.t) (sst_column : SstColumn.t)
    : ColumnNew.t :=
  let column_name := SstColumn.column_name sst_column in
  let description := SstColumn.description sst_column in
  let description :=
    if bool_decide (SstColumn.expression sst_column = None
                    ∨ SstColumn.expression sst_column = Some "")
    then
      match dbt_columns !! column_name ≫= DbtColumn.description with
      | Some d => Some (convert_markdown_to_plain_text d)
      | None =>
          match default_column_descs !! column_name ≫= DefaultCol.desc with
          | Some d => Some (convert_markdown_to_plain_text d)
          | None => description
          end
      end
    else description in
  ColumnNew.mk column_name (SstColumn.id sst_column) description.

Definition merge_columns_info (dataset : Dataset.t) (tables : gmap string Table.t)
    (default_descriptions : DefaultDescriptions) : M Dataset.t :=
  let key := Dataset.key dataset in
  let* sst_columns := subscript "columns" (Dataset.columns dataset) in
  let dbt_columns := default ∅ (Table.columns <$> tables !! key) in
  let default_column_descs := default_columns default_descriptions in
  let* sst_description := subscript "description" (Dataset.description dataset) in
  let dbt_description := tables !! key ≫= Table.description in
  let* sst_owners := subscript "owners" (Dataset.owners dataset) in
  let columns_new := column_new_of dbt_columns default_column_descs <$> sst_columns in
  let description_new :=
    match dbt_description with
    | None => sst_description
    | Some d => Some (convert_markdown_to_plain_text d)
    end in
  let owners_new := Owner.id <$> sst_owners in
  ret (Dataset.mk (Dataset.id dataset) (Dataset.key dataset)
         (Dataset.columns dataset) (Dataset.description dataset) (Dataset.owners dataset)
         (Some columns_new) (Some description_new) (Some owners_new)).

Definition column_old_of (col : SstColumn.t) : ColumnNew.t :=
  ColumnNew.mk (SstColumn.column_name col) (SstColumn.id col) (SstColumn.description col).

Definition put_descriptions_to_superset (dataset : Dataset.t)
    (superset_pause_after_update : Z) : M unit :=
  let* description_new := subscript "description_new" (Dataset.description_new dataset) in
  let* columns_new := subscript "columns_new" (Dataset.columns_new dataset) in
  let* owners_new := subscript "owners_new" (Dataset.owners_new dataset) in
  let* description_old := subscript "description" (Dataset.description dataset) in
  let* columns := subscript "columns" (Dataset.columns dataset) in
  let columns_old := column_old_of <$> columns in
  if bool_decide (description_new ≠ description_old)
     || negb (check_columns_equal columns_new columns_old)
  then
    let payload := WritePayload description_new columns_new owners_new in
    request server "PUT"
      ("/dataset/" +:+ pretty (Dataset.id dataset) +:+ "?override_columns=false")
      true None (Kwargs.mk None (Some payload));;;
    pause_after_update superset_pause_after_update
  else ret tt.

(** [main] reads the name [superset_refresh_token], which is bound neither
    as a parameter or local of [main] nor at module level: evaluating it
    raises [NameError]. *)
Definition superset_refresh_token : M (option string) :=
  raise (NameError "superset_refresh_token").

Definition missing_credentials_msg : string :=
  "Add ``USERNAME`` or ``PASSWORD`` "
  +:+ "to your environment variables or provide in CLI "
  +:+ "via ``username`` or ``password``.".

(** The body of [for i, sst_dataset in enumerate(sst_datasets_dbt_filtered)]. *)
Fixpoint for_sst_dataset (superset_refresh_columns : bool)
    (superset_pause_after_update : Z) (dbt_tables : gmap string Table.t)
    (default_descriptions : DefaultDescriptions)
    (sst_datasets_dbt_filtered : list Dataset.t) : M unit :=
  match sst_datasets_dbt_filtered with
  | [] => ret tt
  | sst_dataset :: rest =>
      let sst_dataset_id := Dataset.id sst_dataset in
      try_except_HTTPError
        ((if superset_refresh_columns
          then refresh_columns_in_superset sst_dataset_id;;;
               pause_after_update superset_pause_after_update
          else ret tt);;;
         let* sst_dataset_w_cols := add_superset_columns sst_dataset in
         let* sst_dataset_w_cols_new :=
           merge_columns_info sst_dataset_w_cols dbt_tables default_descriptions in
         put_descriptions_to_superset sst_dataset_w_cols_new superset_pause_after_update)
        (λ _, ret tt);;;
      for_sst_dataset superset_refresh_columns superset_pause_after_update dbt_tables
        default_descriptions rest
  end.

Definition main (fuel : nat) (dbt_project_dir : string) (dbt_db_name : option string)
    (superset_url : string) (superset_db_id : option Z) (dataset_filter : option string)
    (superset_refresh_columns : bool) (superset_pause_after_update : Z)
    (default_descriptions_yaml_path : option string)
    (username password : option string) : M unit :=
  let* creds :=
    (if bool_decide (username ≠ None) then ret true
     else let* tok := superset_refresh_token in
          ret (bool_decide (tok ≠ None))) in
  py_assert creds missing_credentials_msg;;;
  Superset_init server (superset_url +:+ "/api/v1") username password;;;
  let* sst_datasets := get_datasets_from_superset fuel superset_db_id dataset_filter in
  let manifest_path := dbt_project_dir +:+ "/target/manifest.json" in
  let* f := read_file manifest_path in
  let* dbt_manifest := match f with FManifest m => ret m | _ => raise TypeError end in
  let* default_descriptions := get_default_column_desc default_descriptions_yaml_path in
  let* dbt_manifest :=
    (if bool_decide (default_descriptions ≠ ∅)
     then
       let* f := read_file (dbt_project_dir +:+ "/target/catalog.json") in
       let* dbt_catalog := match f with FCatalog c => ret c | _ => raise TypeError end in
       let* updated_dbt_manifest :=
         update_dbt_with_default_desc dbt_manifest dbt_catalog default_descriptions in
       write_file manifest_path (FManifest updated_dbt_manifest);;;
       ret updated_dbt_manifest
     else ret dbt_manifest) in
  let* dbt_tables := get_tables_from_dbt dbt_manifest dbt_db_name in
  let sst_datasets_dbt_filtered :=
    filter (λ d, is_Some (dbt_tables !! Dataset.key d)) sst_datasets in
  for_sst_dataset superset_refresh_columns superset_pause_after_update dbt_tables
    default_descriptions sst_datasets_dbt_filtered.
End push_descriptions.

(** ** Vocabulary of the statements *)

(** The write calls (and column refreshes) among the invocations of
    [Superset.request] so far: those with method [PUT]. *)
Definition put_calls (w : World.t) : list ApiCall.t :=
  filter (λ c, ApiCall.method c = "PUT") (World.calls w).

(** A computation adds exactly the [PUT] calls [l], whatever its outcome. *)
Definition adds_puts {A} (l : list ApiCall.t) (m : M A) : Prop :=
  ∀ w, put_calls (snd (m w)) = put_calls w ++ l.

(** The headers [Superset._headers] computes in a given session. *)
Definition auth_headers (self : Superset.t) (headers : gmap string string)
    : gmap string string :=
  match Superset.access_token self with
  | None => headers
  | Some tok => headers ∪ {[ "Authorization" := bearer tok ]}
  end.

(** The order [sorted_by_id] sorts by. *)
Definition le_id (c1 c2 : ColumnNew.t) : Prop := ColumnNew.id c1 ≤ ColumnNew.id c2.

(** The write call [put_descriptions_to_superset] issues for a dataset. *)
Definition write_call (dataset_id : Z) (description_new : option string)
    (columns_new : list ColumnNew.t) (owners_new : list Z) : ApiCall.t :=
  ApiCall.mk "PUT" ("/dataset/" +:+ pretty dataset_id +:+ "?override_columns=false")
    (Kwargs.mk None (Some (WritePayload description_new columns_new owners_new))).

(** The first key of [keys] that is in [seen] or occurred earlier in [keys]. *)
Fixpoint first_dup (keys : list string) (seen : gset string) : option string :=
  match keys with
  | [] => None
  | k :: keys' =>
      if bool_decide (k ∈ seen) then Some k else first_dup keys' ({[ k ]} ∪ seen)
  end.

(** A listed record passes the filters of [get_datasets_from_superset]. *)
Definition passes_filters (superset_db_id : option Z) (dataset_filter : option string)
    (r : RawDataset.t) : bool :=
  passes_kind_db superset_db_id r
  && negb (skipped_by_filter dataset_filter (dataset_key_of r)).

(** The [dataset_dict] built for a listed record. *)
Definition dataset_dict_of (r : RawDataset.t) : Dataset.t :=
  Dataset.mk (RawDataset.id r) (dataset_key_of r) None None None None None None.

(** The request for page [n] of the listing. *)
Definition page_request (api_url : string) (headers : gmap string string) (n : nat)
    : HttpRequest.t :=
  HttpRequest.mk "GET" (api_url +:+ "/dataset/") headers
    (Kwargs.mk (Some (Params.mk n 100)) None).

(** The remote listing, from page [n] on, consists of the pages [pages]
    followed by one empty page: each of these page requests is answered
    with status 200 and that page as [result]. *)
Definition serves_listing_from (server : Server) (api_url : string) (n : nat)
    (pages : list (list RawDataset.t)) : Prop :=
  ∀ history headers i, (i ≤ length pages)%nat →
    let res := server history (page_request api_url headers (n + i)) in
    Response.status_code res = 200
    ∧ Body.result (Response.json res) = Some (ResultList (default [] (pages !! i))).

Definition serves_listing (server : Server) (api_url : string)
    (pages : list (list RawDataset.t)) : Prop :=
  serves_listing_from server api_url 0 pages.

(** A manifest table passes the database filter of [get_tables_from_dbt]. *)
Definition table_selected (dbt_db_name : option string) (table : ManifestTable.t) : bool :=
  match dbt_db_name with
  | None => true
  | Some db => String.eqb (ManifestTable.database table) db
  end.

Definition table_key_short_of (table : ManifestTable.t) : string :=
  ManifestTable.schema table +:+ "." +:+ ManifestTable.name table.

(** The entry [get_tables_from_dbt] stores for a selected manifest table. *)
Definition add_table (tables : gmap string Table.t) (entry : string * ManifestTable.t)
    : gmap string Table.t :=
  <[ table_key_short_of entry.2 :=
       Table.mk (ManifestTable.columns entry.2) (ManifestTable.description entry.2) ]> tables.

(** A target column is physical: its [expression] is [None] or empty. *)
Definition is_physical (c : SstColumn.t) : Prop :=
  SstColumn.expression c = None ∨ SstColumn.expression c = Some "".

(** The delta of a dataset differs from its current state, in the words of
    the specification: description, columns (keyed by id, in any order) or
    owners differ. *)
Definition delta_differs (description_new description : option string)
    (columns_new : list ColumnNew.t) (columns : list SstColumn.t)
    (owners_new : list Z) (owners : list Owner.t) : Prop :=
  description_new ≠ description
  ∨ ¬ columns_new ≡ₚ column_old_of <$> columns
  ∨ owners_new ≠ Owner.id <$> owners.

(** The remote state [d'] read after a write of [d]'s delta reflects the
    payload: the description is the written one and the columns carry the
    written descriptions (in the written order, or in any order when the
    written ids are pairwise distinct); the delta is the same. *)
Definition reflects_write (d d' : Dataset.t) : Prop :=
  Dataset.id d' = Dataset.id d
  ∧ Dataset.description_new d' = Dataset.description_new d
  ∧ Dataset.columns_new d' = Dataset.columns_new d
  ∧ Dataset.owners_new d' = Dataset.owners_new d
  ∧ Dataset.description d' = Dataset.description_new d
  ∧ ∃ cn cols',
      Dataset.columns_new d = Some cn ∧ Dataset.columns d' = Some cols'
      ∧ let written := column_old_of <$> cols' in
        written = cn ∨ (NoDup (ColumnNew.id <$> cn) ∧ written ≡ₚ cn).

(** ** Example data

    The end-to-end scenario of the specification: the target entity
    [sales.orders] with one physical column [amount] and one computed
    column [margin], and the matching source table. *)

(** A stand-in for the converter on text that carries no markup. *)
Definition example_convert (md_string : string) : string := md_string.

Definition example_amount : SstColumn.t :=
  SstColumn.mk "amount" 1 (Some "") (Some "").

Definition example_margin : SstColumn.t :=
  SstColumn.mk "margin" 2 (Some "revenue minus cost") (Some "revenue - cost").

Definition example_dataset : Dataset.t :=
  Dataset.mk 1 "sales.orders" (Some [example_amount; example_margin]) (Some (Some "old"))
    (Some [Owner.mk 1]) None None None.

Definition example_tables : gmap string Table.t :=
  {[ "sales.orders" :=
       Table.mk {[ "amount" := DbtColumn.mk (Some "Order amount");
                   "margin" := DbtColumn.mk (Some "Margin from dbt") ]}
                (Some "Orders table") ]}.


Definition example_defaults : DefaultDescriptions :=
  {[ "columns" := {[ "amount" := DefaultCol.mk (Some "Default amount");
                     "margin" := DefaultCol.mk (Some "Default margin") ]} ]}.

Definition example_session : Superset.t :=
  Superset.mk "http://superset/api/v1" (Some "admin") (Some "secret")
    (Some "stale") (Some "refresh-me").

Definition example_world : World.t := World.mk example_session [] [] [] ∅.

(** A server that accepts everything. *)
Definition accepting_server : Server := λ _ _, Response.mk 200 Body.empty.

(** The example dataset after [merge_columns_info]. *)
Definition example_merged : Dataset.t :=
  Dataset.mk 1 "sales.orders" (Some [example_amount; example_margin]) (Some (Some "old"))
    (Some [Owner.mk 1])
    (Some [ColumnNew.mk "amount" 1 (Some "Order amount");
           ColumnNew.mk "margin" 2 (Some "revenue minus cost")])
    (Some (Some "Orders table")) (Some [1]).

(** The remote state after that delta was written, with the same delta. *)
Definition example_rewritten : Dataset.t :=
  Dataset.mk 1 "sales.orders"
    (Some [SstColumn.mk "margin" 2 (Some "revenue minus cost") (Some "revenue - cost");
           SstColumn.mk "amount" 1 (Some "Order amount") (Some "")])
    (Some (Some "Orders table")) (Some [Owner.mk 1])
    (Some [ColumnNew.mk "amount" 1 (Some "Order amount");
           ColumnNew.mk "margin" 2 (Some "revenue minus cost")])
    (Some (Some "Orders table")) (Some [1]).

(** Datasets whose delta differs from the current state in the owners only. *)
Definition example_owner_delta : Dataset.t :=
  Dataset.mk 1 "sales.orders" (Some [example_amount]) (Some (Some "old"))
    (Some [Owner.mk 1])
    (Some [ColumnNew.mk "amount" 1 (Some "")]) (Some (Some "old")) (Some [2]).

Definition example_owner_removed : Dataset.t :=
  Dataset.mk 5 "sales.customers" (Some []) (Some None)
    (Some [Owner.mk 3; Owner.mk 7])
    (Some []) (Some None) (Some [3]).

(** A server whose dataset listing consists of [pages]; pages past the end
    are empty. *)
Definition listing_server (pages : list (list RawDataset.t)) : Server :=
  λ _ req,
    match Kwargs.params (HttpRequest.kwargs req) with
    | Some q =>
        Response.mk 200
          (Body.mk None None None (Some (ResultList (default [] (pages !! Params.page q)))))
    | None => Response.mk 200 Body.empty
    end.

(** Two physical datasets of different databases with the same schema and
    table name, and a third one. *)
Definition example_orders : RawDataset.t :=
  RawDataset.mk "physical" 1 10 "orders" (Some "sales").

Definition example_orders_copy : RawDataset.t :=
  RawDataset.mk "physical" 2 11 "orders" (Some "sales").

Definition example_customers : RawDataset.t :=
  RawDataset.mk "physical" 1 12 "customers" (Some "sales").

(** A manifest in which a model and a source have the same schema and name. *)
Definition example_orders_table : ManifestTable.t :=
  ManifestTable.mk "orders" "sales" "warehouse" ∅ (Some "Orders table").

Definition example_duplicate_manifest : Manifest.t :=
  Manifest.mk [("model.shop.orders", example_orders_table)]
              [("source.shop.sales.orders", example_orders_table)].

(** A server on which the access token ["stale"] has expired: it answers
    401 with the expiry marker until a request carries the token ["fresh"],
    which the refresh endpoint hands out. *)
Definition expiring_server : Server :=
  λ _ req,
    if String.eqb (HttpRequest.url req) "http://superset/api/v1/security/refresh"
    then Response.mk 200 (Body.mk None (Some "fresh") None None)
    else if bool_decide (HttpRequest.headers req !! "Authorization" = Some "Bearer fresh")
    then Response.mk 200 Body.empty
    else Response.mk 401 (Body.mk (Some "Token has expired") None None None).

(** The write of the example delta. *)
Definition example_write_kwargs : Kwargs.t :=
  Kwargs.mk None
    (Some (WritePayload (Some "Orders table")
             [ColumnNew.mk "amount" 1 (Some "Order amount")] [1])).

(** The session after a refresh that returned the access token [tok]. *)
Definition refreshed (self : Superset.t) (tok : string) : Superset.t :=
  Superset.mk (Superset.api_url self) (Superset.username self) (Superset.password self)
    (Some tok) (Superset.refresh_token self).

(** A small Superset: it hands out tokens, lists the one dataset
    [sales.orders] (id 10) on page 0, and shows its columns; once a write
    for dataset 10 is among the earlier requests, it shows the written
    state. *)
Definition is_write_to_orders (req : HttpRequest.t) : bool :=
  String.eqb (HttpRequest.method req) "PUT"
  && String.eqb (HttpRequest.url req)
       "http://superset/api/v1/dataset/10?override_columns=false".

Definition demo_server : Server :=
  λ history req,
    let url := HttpRequest.url req in
    if String.eqb url "http://superset/api/v1/security/login"
    then Response.mk 200 (Body.mk None (Some "token") (Some "refresh-me") None)
    else if String.eqb url "http://superset/api/v1/dataset/"
    then listing_server [[example_orders]] history req
    else if String.eqb url "http://superset/api/v1/dataset/10"
    then
      Response.mk 200
        (Body.mk None None None
           (Some (ResultDetail
              (if existsb is_write_to_orders history
               then DatasetDetail.mk
                      [SstColumn.mk "amount" 1 (Some "Order amount") (Some "");
                       example_margin]
                      (Some "Orders table") [Owner.mk 1]
               else DatasetDetail.mk [example_amount; example_margin]
                      (Some "old") [Owner.mk 1]))))
    else Response.mk 200 Body.empty.

Definition demo_manifest : Manifest.t :=
  Manifest.mk
    [("model.shop.orders",
      ManifestTable.mk "orders" "sales" "warehouse"
        {[ "amount" := DbtColumn.mk (Some "Order amount") ]} (Some "Orders table"))]
    [].

Definition demo_world : World.t :=
  World.mk (Superset.mk "" None None None None) [] [] []
    {[ "./target/manifest.json" := FManifest demo_manifest ]}.

Definition demo_run : M unit :=
  main demo_server example_convert 5 "." None "http://superset" None None false 2 None
    (Some "admin") (Some "secret").

(** ** Vocabulary of the further properties *)

(** A computation leaves an observation [proj] of the world as it was,
    whatever its outcome. *)
Definition preserves {X A} (proj : World.t → X) (m : M A) : Prop :=
  ∀ w, proj (m w).2 = proj w.

(** An observation that does not depend on the traffic logs. *)
Definition ignores_traffic {X} (proj : World.t → X) : Prop :=
  ∀ s wi c sl f wi' c',
    proj (World.mk s wi c sl f) = proj (World.mk s wi' c' sl f).

(** An observation that does not depend on the session's access token. *)
Definition ignores_access_token {X} (proj : World.t → X) : Prop :=
  ∀ u n p t r t' wi c sl f,
    proj (World.mk (Superset.mk u n p t r) wi c sl f)
    = proj (World.mk (Superset.mk u n p t' r) wi c sl f).

(** An observation that does not depend on the session at all. *)
Definition ignores_session {X} (proj : World.t → X) : Prop :=
  ∀ s s' wi c sl f, proj (World.mk s wi c sl f) = proj (World.mk s' wi c sl f).

(** An observation that does not depend on the sleeps. *)
Definition ignores_slept {X} (proj : World.t → X) : Prop :=
  ∀ s wi c sl sl' f, proj (World.mk s wi c sl f) = proj (World.mk s wi c sl' f).

(** What [Superset.request] never changes: the session's URL, credentials
    and refresh token, the sleeps and the files. *)
Definition stable_part (w : World.t)
    : string * option string * option string * option string * list Z * gmap string File :=
  (Superset.api_url (World.session w), Superset.username (World.session w),
   Superset.password (World.session w), Superset.refresh_token (World.session w),
   World.slept w, World.fs w).

(** A computation puts at most [n] requests on the wire, after those
    already there. *)
Definition sends {A} (n : nat) (m : M A) : Prop :=
  ∀ w, ∃ extra, World.wire (m w).2 = World.wire w ++ extra ∧ (length extra ≤ n)%nat.

(** A computation never ends in an exception of the kind [P]. *)
Definition never_raises {A} (P : exn → Prop) (m : M A) : Prop :=
  ∀ w e, (m w).1 = Raise e → ¬ P e.

Definition is_HTTPError (e : exn) : Prop := ∃ s, e = HTTPError s.
Definition is_AssertionError (e : exn) : Prop := ∃ msg, e = AssertionError msg.

(** The request [Superset.request] sends first. *)
Definition first_request (w : World.t) (method endpoint : string)
    (headers : option (gmap string string)) (request_kwargs : Kwargs.t) : HttpRequest.t :=
  HttpRequest.mk method (Superset.api_url (World.session w) +:+ endpoint)
    (auth_headers (World.session w) (default ∅ headers)) request_kwargs.

(** The status is one that [raise_for_status] turns into [HTTPError]. *)
Definition is_error_status (status_code : Z) : bool :=
  (400 <=? status_code) && (status_code <? 600).

(** The world after [Superset.request] has logged the call and sent its
    first request. *)
Definition after_first_request (w : World.t) (method endpoint : string)
    (headers : option (gmap string string)) (request_kwargs : Kwargs.t) : World.t :=
  World.mk (World.session w)
    (World.wire w ++ [first_request w method endpoint headers request_kwargs])
    (World.calls w ++ [ApiCall.mk method endpoint request_kwargs])
    (World.slept w) (World.fs w).

(** The world with another session object. *)
Definition with_session (w : World.t) (s : Superset.t) : World.t :=
  World.mk s (World.wire w) (World.calls w) (World.slept w) (World.fs w).

(** What [raise_for_status] followed by [return res.json()] yields. *)
Definition outcome_of (res : Response.t) : Res Body.t :=
  if is_error_status (Response.status_code res)
  then Raise (HTTPError (Response.status_code res))
  else Ok (Response.json res).

(** The refresh request of a session that holds the refresh token [rt],
    and the world after it was sent. *)
Definition refresh_headers (rt : string) : option (gmap string string) :=
  Some {[ "Authorization" := bearer rt ]}.

Definition after_refresh_request (w : World.t) (rt : string) : World.t :=
  after_first_request w "POST" "/security/refresh" (refresh_headers rt) Kwargs.none.

(** The answer to the first request asks for a refresh: 401 with the
    expiry marker. *)
Definition asks_for_refresh (res : Response.t) : Prop :=
  Response.status_code res = 401
  ∧ Body.msg (Response.json res) = Some "Token has expired".

(** The login request of [Superset.__init__] and the world after it. *)
Definition login_kwargs (username password : option string) : Kwargs.t :=
  Kwargs.mk None (Some (AuthPayload username password "db" true)).

Definition login_request (api_url : string) (username password : option string)
    : HttpRequest.t :=
  HttpRequest.mk "POST" (api_url +:+ "/security/login") ∅ (login_kwargs username password).

Definition after_login_request (w : World.t) (api_url : string)
    (username password : option string) (access_token refresh_token : option string)
    : World.t :=
  World.mk (Superset.mk api_url username password access_token refresh_token)
    (World.wire w ++ [login_request api_url username password])
    (World.calls w ++ [ApiCall.mk "POST" "/security/login" (login_kwargs username password)])
    (World.slept w) (World.fs w).

(** A server that knows one user and hands out fixed tokens. *)
Definition login_server : Server :=
  λ _ req,
    match Kwargs.json (HttpRequest.kwargs req) with
    | Some (AuthPayload (Some "admin") (Some "secret") _ _) =>
        Response.mk 200 (Body.mk None (Some "token") (Some "refresh-me") None)
    | _ => Response.mk 401 (Body.mk (Some "Token has expired") None None None)
    end.

(** The listed records that pass the filters, in page-then-record order. *)
Definition accepted_records (superset_db_id : option Z) (dataset_filter : option string)
    (pages : list (list RawDataset.t)) : list RawDataset.t :=
  filter (λ r, passes_filters superset_db_id dataset_filter r = true) (concat pages).

(** A virtual dataset, and a physical one in another schema. *)
Definition example_virtual : RawDataset.t :=
  RawDataset.mk "virtual" 1 13 "orders" (Some "sales").

Definition example_invoices : RawDataset.t :=
  RawDataset.mk "physical" 1 14 "invoices" (Some "finance").


(** The listing serves the pages [pages] from page [n] on, and then
    answers the next page request with the status [status_code]. *)
Definition serves_pages_then_status (server : Server) (api_url : string) (n : nat)
    (pages : list (list RawDataset.t)) (status_code : Z) : Prop :=
  (∀ history headers i page, pages !! i = Some page →
     let res := server history (page_request api_url headers (n + i)) in
     Response.status_code res = 200
     ∧ Body.result (Response.json res) = Some (ResultList page))
  ∧ (∀ history headers,
       Response.status_code
         (server history (page_request api_url headers (n + length pages)))
       = status_code).

(** A server whose listing breaks down after [pages]. *)
Definition failing_listing_server (pages : list (list RawDataset.t)) : Server :=
  λ _ req,
    match Kwargs.params (HttpRequest.kwargs req) with
    | Some q =>
        match pages !! Params.page q with
        | Some page => Response.mk 200 (Body.mk None None None (Some (ResultList page)))
        | None => Response.mk 503 Body.empty
        end
    | None => Response.mk 200 Body.empty
    end.

(** The manifest tables that pass the database filter, [nodes] first. *)
Definition selected_tables (dbt_db_name : option string) (dbt_manifest : Manifest.t)
    : list (string * ManifestTable.t) :=
  filter (λ e, table_selected dbt_db_name e.2 = true)
    (Manifest.nodes dbt_manifest ++ Manifest.sources dbt_manifest).

(** The stored entry of a manifest table. *)
Definition table_of (table : ManifestTable.t) : Table.t :=
  Table.mk (ManifestTable.columns table) (ManifestTable.description table).

(** A manifest with a model and a source of two databases. *)
Definition example_customers_table : ManifestTable.t :=
  ManifestTable.mk "customers" "sales" "lake"
    {[ "name" := DbtColumn.mk (Some "Customer name") ]} None.

Definition example_manifest : Manifest.t :=
  Manifest.mk [("model.shop.orders", example_orders_table)]
              [("source.shop.sales.customers", example_customers_table)].

(** The columns [cols'] extend the documented columns [cols] by defaults:
    every documented column is as it was, and a column that is new carries
    the description of its entry in the defaults map. *)
Definition columns_extend (default_column_descs : gmap string DefaultCol.t)
    (cols cols' : gmap string DbtColumn.t) : Prop :=
  ∀ c,
    match cols !! c with
    | Some x => cols' !! c = Some x
    | None =>
        cols' !! c = None
        ∨ ∃ dflt desc,
            default_column_descs !! c = Some dflt
            ∧ DefaultCol.desc dflt = Some desc
            ∧ cols' !! c = Some (DbtColumn.mk (Some desc))
    end.

(** The same for a manifest table and for the entries of a manifest
    partition: nothing but the columns changes, and keys keep their order. *)
Definition table_extends (default_column_descs : gmap string DefaultCol.t)
    (t t' : ManifestTable.t) : Prop :=
  ManifestTable.name t' = ManifestTable.name t
  ∧ ManifestTable.schema t' = ManifestTable.schema t
  ∧ ManifestTable.database t' = ManifestTable.database t
  ∧ ManifestTable.description t' = ManifestTable.description t
  ∧ columns_extend default_column_descs (ManifestTable.columns t) (ManifestTable.columns t').

Definition subset_extends (default_column_descs : gmap string DefaultCol.t)
    (l l' : list (string * ManifestTable.t)) : Prop :=
  Forall2 (λ e e', e'.1 = e.1 ∧ table_extends default_column_descs e.2 e'.2) l l'.

(** Every catalog column that has a default entry is documented in the
    manifest table of the same long key. *)
Definition defaults_applied (default_column_descs : gmap string DefaultCol.t)
    (catalog_subset : list (string * CatalogTable.t))
    (manifest_subset : list (string * ManifestTable.t)) : Prop :=
  ∀ key ct c,
    (key, ct) ∈ catalog_subset →
    c ∈ CatalogTable.columns ct →
    is_Some (default_column_descs !! c) →
    ∃ t, alist_get key manifest_subset = Some t ∧ is_Some (ManifestTable.columns t !! c).

(** A catalog for the example manifest: [orders] has the documented column
    [amount] and the undocumented columns [id] and [note]. *)
Definition example_documented_table : ManifestTable.t :=
  ManifestTable.mk "orders" "sales" "warehouse"
    {[ "amount" := DbtColumn.mk (Some "Order amount") ]} (Some "Orders table").

Definition example_documented_manifest : Manifest.t :=
  Manifest.mk [("model.shop.orders", example_documented_table)] [].

Definition example_catalog : Catalog.t :=
  Catalog.mk [("model.shop.orders", CatalogTable.mk "orders" ["id"; "amount"; "note"])] [].

Definition example_id_defaults : DefaultDescriptions :=
  {[ "columns" := {[ "id" := DefaultCol.mk (Some "Primary key");
                     "amount" := DefaultCol.mk (Some "Default amount") ]} ]}.


(** The example manifest after the defaults were filled in. *)
Definition example_updated_manifest : Manifest.t :=
  Manifest.mk
    [("model.shop.orders",
      ManifestTable.mk "orders" "sales" "warehouse"
        {[ "amount" := DbtColumn.mk (Some "Order amount");
           "id" := DbtColumn.mk (Some "Primary key") ]} (Some "Orders table"))]
    [].

(** The source description of a column name in the table matched by [key],
    if there is one. *)
Definition source_description (tables : gmap string Table.t) (key column_name : string)
    : option string :=
  default ∅ (Table.columns <$> tables !! key) !! column_name ≫= DbtColumn.description.

(** The default description of a column name, if there is one. *)
Definition default_description (default_descriptions : DefaultDescriptions)
    (column_name : string) : option string :=
  default_columns default_descriptions !! column_name ≫= DefaultCol.desc.

(** A target column as it reads after the entry [cn] of the delta was
    written: the description is the written one, the rest is as before. *)
Definition written_column (c : SstColumn.t) (cn : ColumnNew.t) : SstColumn.t :=
  SstColumn.mk (SstColumn.column_name c) (SstColumn.id c) (ColumnNew.description cn)
    (SstColumn.expression c).

(** The dataset as it reads after the delta of the merged dataset [d] was
    written: description and column descriptions are the written ones,
    owners stay; the delta keys are not part of what is read. *)
Definition read_after_write (d : Dataset.t) : Dataset.t :=
  Dataset.mk (Dataset.id d) (Dataset.key d)
    (cols ← Dataset.columns d; cn ← Dataset.columns_new d;
     Some (zip_with written_column cols cn))
    (Dataset.description_new d) (Dataset.owners d) None None None.






(** If the computation ends in an exception of the kind [P], it has
    issued no [PUT] call. *)
Definition raises_before_put {A} (P : exn → Prop) (m : M A) : Prop :=
  ∀ w e, (m w).1 = Raise e → P e → put_calls (m w).2 = put_calls w.

(** A Superset that hands out tokens and whose listing repeats a key. *)
Definition duplicate_listing_server : Server :=
  λ history req,
    if String.eqb (HttpRequest.url req) "http://superset/api/v1/security/login"
    then Response.mk 200 (Body.mk None (Some "token") (Some "refresh-me") None)
    else listing_server [[example_orders; example_orders_copy]] history req.

(** The file stored under a path. *)
Definition file_at (path : string) (w : World.t) : option File := World.fs w !! path.

(** A world for a run with defaults: manifest, catalog and defaults file. *)
Definition example_files_world : World.t :=
  World.mk (Superset.mk "" None None None None) [] [] []
    {[ "./target/manifest.json" := FManifest example_documented_manifest;
       "./target/catalog.json" := FCatalog example_catalog;
       "defaults.yml" := FYaml example_id_defaults ]}.

(** A computation only appends to the log of [Superset.request] calls. *)
Definition grows {A} (m : M A) : Prop :=
  ∀ w, World.calls w `prefix_of` World.calls (m w).2.

(** The first call the loop of [main] makes for a dataset: the column
    refresh when it is switched on, the read of the columns otherwise. *)
Definition first_call_for (superset_refresh_columns : bool) (d : Dataset.t) : ApiCall.t :=
  if superset_refresh_columns
  then ApiCall.mk "PUT" ("/dataset/" +:+ pretty (Dataset.id d) +:+ "/refresh") Kwargs.none
  else ApiCall.mk "GET" ("/dataset/" +:+ pretty (Dataset.id d)) Kwargs.none.

(** Two matched datasets of which the first cannot be read. *)
Definition example_unreadable : Dataset.t :=
  Dataset.mk 99 "sales.broken" None None None None None None.

Definition example_readable : Dataset.t :=
  Dataset.mk 10 "sales.orders" None None None None None None.

(** A Superset on which reading dataset 99 fails. *)
Definition flaky_server : Server :=
  λ history req,
    if String.eqb (HttpRequest.url req) "http://superset/api/v1/dataset/99"
    then Response.mk 500 Body.empty
    else demo_server history req.

Definition flaky_world : World.t :=
  World.mk (Superset.mk "http://superset/api/v1" (Some "admin") (Some "secret")
              (Some "token") (Some "refresh-me")) [] [] [] ∅.

(** A computation logs the call [c] at once, whatever happens after. *)
Definition logs_first {A} (c : ApiCall.t) (m : M A) : Prop :=
  ∀ w, (World.calls w ++ [c]) `prefix_of` World.calls (m w).2.

(** * Verification *)

(** ** How computations extend the log of write calls *)

Lemma headers_run h w : _headers h w = (Ok (auth_headers (World.session w) h), w).
Proof.
  unfold _headers, auth_headers, bind, get_session.
  destruct (Superset.access_token (World.session w)); reflexivity.
Qed.

Lemma adds_puts_ret {A} (a : A) : adds_puts [] (ret a).
Proof. intros w. simpl. by rewrite app_nil_r. Qed.

Lemma adds_puts_raise {A} e : adds_puts [] (@raise A e).
Proof. intros w. simpl. by rewrite app_nil_r. Qed.

Lemma adds_puts_bind {A B} l (m : M A) (k : A → M B) :
  adds_puts l m → (∀ a, adds_puts [] (k a)) → adds_puts l (bind m k).
Proof.
  intros Hm Hk w. unfold bind. specialize (Hm w).
  destruct (m w) as [[a|e|] w']; simpl in *; [|done..].
  by rewrite (Hk a w'), Hm, app_nil_r.
Qed.

Lemma adds_puts_get_session : adds_puts [] get_session.
Proof. intros w. simpl. by rewrite app_nil_r. Qed.

Lemma adds_puts_set_session s : adds_puts [] (set_session s).
Proof. intros w. simpl. by rewrite app_nil_r. Qed.

Lemma adds_puts_headers h : adds_puts [] (_headers h).
Proof. intros w. rewrite headers_run. simpl. by rewrite app_nil_r. Qed.

Lemma adds_puts_requests_request server m u h k :
  adds_puts [] (requests_request server m u h k).
Proof. intros w. simpl. by rewrite app_nil_r. Qed.

Lemma adds_puts_raise_for_status r : adds_puts [] (raise_for_status r).
Proof.
  unfold raise_for_status. case_match; [apply adds_puts_raise | apply adds_puts_ret].
Qed.

Lemma adds_puts_subscript {A} k (o : option A) : adds_puts [] (subscript k o).
Proof. destruct o; [apply adds_puts_ret | apply adds_puts_raise]. Qed.

Lemma adds_puts_time_sleep secs : adds_puts [] (time_sleep secs).
Proof.
  unfold time_sleep. case_match; [apply adds_puts_raise|].
  intros w. simpl. by rewrite app_nil_r.
Qed.

Lemma adds_puts_pause_after_update secs : adds_puts [] (pause_after_update secs).
Proof.
  unfold pause_after_update. case_match; [apply adds_puts_ret | apply adds_puts_time_sleep].
Qed.

Lemma adds_puts_log_call m e k :
  adds_puts (if bool_decide (m = "PUT") then [ApiCall.mk m e k] else []) (log_call m e k).
Proof.
  intros w. unfold put_calls. simpl. rewrite filter_app. f_equal.
  case_bool_decide.
  - by rewrite filter_cons_True.
  - by rewrite filter_cons_False.
Qed.

Create HintDb puts.
#[local] Hint Resolve adds_puts_ret adds_puts_raise adds_puts_get_session
  adds_puts_set_session adds_puts_headers adds_puts_requests_request
  adds_puts_raise_for_status adds_puts_subscript adds_puts_time_sleep
  adds_puts_pause_after_update : puts.

(** Walks through a computation that adds no write call. *)
Ltac keeps_puts :=
  repeat first
    [ apply adds_puts_bind; [|intros ?]
    | progress eauto with puts
    | match goal with |- adds_puts _ (if ?b then _ else _) => destruct b end
    | match goal with |- adds_puts _ (match ?b with _ => _ end) => destruct b end ].

Lemma adds_puts_request_with server r m e flag h k :
  adds_puts [] r →
  adds_puts (if bool_decide (m = "PUT") then [ApiCall.mk m e k] else [])
    (request_with server r m e flag h k).
Proof.
  intros Hr. unfold request_with.
  apply adds_puts_bind; [apply adds_puts_log_call|intros _].
  keeps_puts.
Qed.

Lemma adds_puts_refresh_access_token server :
  adds_puts [] (_refresh_access_token server).
Proof.
  unfold _refresh_access_token.
  apply adds_puts_bind; [keeps_puts|intros self].
  destruct (Superset.refresh_token self); [|keeps_puts].
  apply adds_puts_bind; [|intros ?; keeps_puts].
  apply (adds_puts_request_with server (ret false) "POST"). keeps_puts.
Qed.

(** One invocation of [Superset.request] is one entry of the call log, also
    when it refreshes the token and retries. *)
Lemma adds_puts_request server m e flag h k :
  adds_puts (if bool_decide (m = "PUT") then [ApiCall.mk m e k] else [])
    (request server m e flag h k).
Proof. apply adds_puts_request_with, adds_puts_refresh_access_token. Qed.

(** With [refresh_token_if_needed=False] the refresh method is not reached:
    the stand-in used inside [_refresh_access_token] is immaterial. *)
Lemma request_with_no_refresh server r1 r2 m e h k w :
  request_with server r1 m e false h k w = request_with server r2 m e false h k w.
Proof. reflexivity. Qed.

(** A request answered with status 200 returns the body; the session is
    untouched and the wire and call logs grow by one entry each. *)
Lemma request_200 server m e flag h k w :
  let req := HttpRequest.mk m (Superset.api_url (World.session w) +:+ e)
               (auth_headers (World.session w) (default ∅ h)) k in
  Response.status_code (server (World.wire w) req) = 200 →
  request server m e flag h k w
  = (Ok (Response.json (server (World.wire w) req)),
     World.mk (World.session w) (World.wire w ++ [req])
       (World.calls w ++ [ApiCall.mk m e k]) (World.slept w) (World.fs w)).
Proof.
  intros req Hst. unfold request, request_with.
  unfold bind at 1. unfold log_call at 1.
  unfold bind at 1. unfold get_session at 1.
  unfold bind at 1. rewrite headers_run. cbn [World.session].
  unfold bind at 1. unfold requests_request at 1. cbn [World.wire World.session].
  fold req. unfold bind at 1. rewrite Hst.
  replace (200 =? 401) with false by reflexivity.
  rewrite andb_false_r. cbn [andb].
  unfold ret at 1. unfold bind at 1. unfold raise_for_status. rewrite Hst.
  reflexivity.
Qed.

(** ** [sorted] by id and [check_columns_equal] *)

#[local] Instance le_id_trans : Transitive le_id.
Proof. unfold le_id. intros x y z. lia. Qed.

Lemma insert_by_id_perm c l : insert_by_id c l ≡ₚ c :: l.
Proof.
  induction l as [|c' l IH]; simpl; [done|].
  case_match; [done|]. by rewrite IH, Permutation_swap.
Qed.

Lemma sorted_by_id_perm l : sorted_by_id l ≡ₚ l.
Proof.
  induction l as [|c l IH]; simpl; [done|].
  unfold sorted_by_id in *. simpl. by rewrite insert_by_id_perm, IH.
Qed.

Lemma insert_by_id_sorted c l : Sorted le_id l → Sorted le_id (insert_by_id c l).
Proof.
  induction 1 as [|c' l Hl IH Hhd]; simpl.
  - by repeat constructor.
  - destruct (ColumnNew.id c <=? ColumnNew.id c') eqn:E.
    + apply Z.leb_le in E. by repeat constructor.
    + apply Z.leb_gt in E. constructor; [done|].
      destruct l as [|c'' l]; simpl.
      * constructor. unfold le_id. lia.
      * inversion Hhd; subst. case_match; constructor; [unfold le_id; lia|done].
Qed.

Lemma sorted_by_id_sorted l : Sorted le_id (sorted_by_id l).
Proof.
  induction l as [|c l IH]; [constructor|].
  by apply insert_by_id_sorted.
Qed.

(** The sort is stable: entries with the same id keep their order. *)
Lemma insert_by_id_stable k c l :
  filter (λ x, ColumnNew.id x = k) (insert_by_id c l)
  = filter (λ x, ColumnNew.id x = k) (c :: l).
Proof.
  induction l as [|c' l IH]; simpl; [done|].
  destruct (ColumnNew.id c <=? ColumnNew.id c') eqn:E; [done|].
  apply Z.leb_gt in E.
  rewrite (filter_cons _ c'), IH, !(filter_cons _ c), (filter_cons _ c').
  repeat case_decide; try done. lia.
Qed.

Lemma sorted_by_id_stable k l :
  filter (λ x, ColumnNew.id x = k) (sorted_by_id l) = filter (λ x, ColumnNew.id x = k) l.
Proof.
  induction l as [|c l IH]; [done|].
  change (sorted_by_id (c :: l)) with (insert_by_id c (sorted_by_id l)).
  by rewrite insert_by_id_stable, !filter_cons, IH.
Qed.

Lemma check_columns_equal_refl l : check_columns_equal l l = true.
Proof. unfold check_columns_equal. by apply bool_decide_eq_true. Qed.

(** When the ids are pairwise distinct the comparison is order-independent:
    it holds exactly for the rearrangements of the list. *)
Lemma check_columns_equal_perm l1 l2 :
  NoDup (ColumnNew.id <$> l1) →
  check_columns_equal l1 l2 = true ↔ l1 ≡ₚ l2.
Proof.
  intros Hnd. unfold check_columns_equal. rewrite bool_decide_eq_true. split.
  - intros Heq. by rewrite <- (sorted_by_id_perm l1), Heq, sorted_by_id_perm.
  - intros Hp.
    apply (Sorted_unique_strong le_id); [|apply sorted_by_id_sorted..|].
    + intros x1 x2 H1 H2 H12 H21.
      rewrite sorted_by_id_perm in H1. rewrite sorted_by_id_perm, <- Hp in H2.
      assert (ColumnNew.id x1 = ColumnNew.id x2) as Hid by (unfold le_id in *; lia).
      apply list_elem_of_lookup in H1 as [i Hi], H2 as [j Hj].
      assert (i = j) as ->; [|congruence].
      eapply NoDup_lookup; [done| |]; rewrite list_lookup_fmap.
      * by rewrite Hi.
      * rewrite Hj. simpl. by rewrite Hid.
    + by rewrite !sorted_by_id_perm.
Qed.

(** With a repeated id the comparison does depend on the order. *)
Lemma check_columns_equal_repeated_id :
  let a := ColumnNew.mk "a" 1 None in
  let b := ColumnNew.mk "b" 1 None in
  [a; b] ≡ₚ [b; a] ∧ check_columns_equal [a; b] [b; a] = false.
Proof. split; [apply Permutation_swap | reflexivity]. Qed.

(** ** Duplicate detection *)

Lemma first_dup_app l1 l2 seen :
  first_dup (l1 ++ l2) seen
  = match first_dup l1 seen with
    | Some k => Some k
    | None => first_dup l2 (list_to_set l1 ∪ seen)
    end.
Proof.
  revert seen. induction l1 as [|k l1 IH]; intros seen; simpl.
  - f_equal. set_solver.
  - case_bool_decide; [done|]. rewrite IH. case_match; [done|].
    f_equal. set_solver.
Qed.

Lemma first_dup_None l seen :
  first_dup l seen = None ↔ NoDup l ∧ ∀ k, k ∈ l → k ∉ seen.
Proof.
  revert seen. induction l as [|k l IH]; intros seen; simpl.
  - split; [|done]. intros _. split; [constructor|set_solver].
  - case_bool_decide as Hk.
    + split; [done|]. intros [_ Hn]. exfalso. apply (Hn k); [apply elem_of_cons; by left|done].
    + rewrite IH, NoDup_cons. split.
      * intros [Hnd Hn]. split; [split; [|done]|].
        -- intros Hin. apply (Hn k Hin). set_solver.
        -- intros k' [->|Hin]%elem_of_cons; [done|]. specialize (Hn k' Hin). set_solver.
      * intros [[Hnk Hnd] Hn]. split; [done|].
        intros k' Hin. assert (k' ∈ k :: l) as Hin' by (apply elem_of_cons; by right).
        specialize (Hn k' Hin'). set_solver.
Qed.

Lemma first_dup_repeated l seen i j k :
  l !! i = Some k → l !! j = Some k → i ≠ j → is_Some (first_dup l seen).
Proof.
  intros Hi Hj Hij. destruct (first_dup l seen) eqn:E; [done|].
  apply first_dup_None in E as [Hnd _].
  destruct Hij. by eapply NoDup_lookup.
Qed.

(** ** The paginated fetcher *)

(** One page is processed without touching the world: the accepted records
    are appended, unless one of their keys was seen before. *)
Lemma for_r_in_result_run sdb filt result ds ks w :
  for_r_in_result sdb filt result ds ks w
  = let acc := filter (λ r, passes_filters sdb filt r = true) result in
    match first_dup (dataset_key_of <$> acc) ks with
    | Some k => (Raise (AssertionError (duplicate_dataset_msg k)), w)
    | None =>
        (Ok (ds ++ (dataset_dict_of <$> acc),
             list_to_set (dataset_key_of <$> acc) ∪ ks), w)
    end.
Proof.
  revert ds ks. induction result as [|r result IH]; intros ds ks; simpl.
  - unfold ret. rewrite app_nil_r. do 3 f_equal. set_solver.
  - destruct (passes_kind_db sdb r) eqn:E1; simpl.
    2: { rewrite filter_cons_False by (unfold passes_filters; by rewrite E1).
         by rewrite IH. }
    destruct (skipped_by_filter filt (dataset_key_of r)) eqn:E2; simpl.
    { rewrite filter_cons_False by (unfold passes_filters; by rewrite E1, E2).
      by rewrite IH. }
    rewrite filter_cons_True by (unfold passes_filters; by rewrite E1, E2).
    cbv zeta. rewrite !fmap_cons. cbn [first_dup].
    unfold bind, py_assert. rewrite bool_decide_not.
    destruct (bool_decide (dataset_key_of r ∈ ks)); cbn [negb]; [done|].
    unfold ret at 1. rewrite IH. cbv zeta.
    destruct (first_dup _ _); [done|].
    rewrite <- app_assoc, list_to_set_cons. simpl. do 3 f_equal. set_solver.
Qed.

Lemma serves_listing_from_tail server url n p rest :
  serves_listing_from server url n (p :: rest) →
  serves_listing_from server url (S n) rest.
Proof.
  intros H history headers i Hi.
  specialize (H history headers (S i)). simpl in H.
  replace (n + S i)%nat with (S n + i)%nat in H by lia.
  apply H. lia.
Qed.

(** The request for page [n], when the listing serves it. *)
Lemma request_page server n pages w :
  serves_listing_from server (Superset.api_url (World.session w)) n pages →
  ∃ body w',
    request server "GET" "/dataset/" true None
      (Kwargs.mk (Some (Params.mk n 100)) None) w = (Ok body, w')
    ∧ Body.result body = Some (ResultList (default [] (pages !! 0%nat)))
    ∧ World.session w' = World.session w
    ∧ World.slept w' = World.slept w
    ∧ World.fs w' = World.fs w.
Proof.
  intros Hserve.
  destruct (Hserve (World.wire w) (auth_headers (World.session w) ∅) 0%nat)
    as [Hst Hres]; [lia|].
  rewrite Nat.add_0_r in Hst, Hres. unfold page_request in Hst, Hres.
  eexists _, _. split; [by apply request_200|]. by cbn.
Qed.

(** The loop over a listing of non-empty pages followed by an empty one:
    it stops at the first key seen twice among the accepted records, and
    otherwise returns all of them, in page-then-record order. *)
Lemma while_pages_run server sdb filt rest :
  ∀ n ds ks w fuel,
    serves_listing_from server (Superset.api_url (World.session w)) n rest →
    Forall (λ p, p ≠ []) rest →
    (length rest < fuel)%nat →
    ∃ w', World.session w' = World.session w
      ∧ World.slept w' = World.slept w
      ∧ World.fs w' = World.fs w
      ∧ while_pages server fuel sdb filt n ds ks w
        = match first_dup (dataset_key_of <$>
                   filter (λ r, passes_filters sdb filt r = true) (concat rest)) ks with
          | Some k => (Raise (AssertionError (duplicate_dataset_msg k)), w')
          | None =>
              (Ok (ds ++ (dataset_dict_of <$>
                     filter (λ r, passes_filters sdb filt r = true) (concat rest))), w')
          end.
Proof.
  induction rest as [|p rest IH]; intros n ds ks w fuel Hserve Hne Hfuel;
    (destruct fuel as [|fuel]; [simpl in Hfuel; lia|]);
    destruct (request_page _ _ _ _ Hserve) as (body & w1 & Hreq & Hres & Hs & Hsl & Hfs);
    cbn [while_pages]; unfold bind at 1; rewrite Hreq;
    unfold bind at 1; rewrite Hres; cbn [subscript]; unfold ret at 1;
    cbn [lookup list_lookup default from_option]; cbv beta iota delta [id].
  - exists w1. cbn. by rewrite app_nil_r.
  - apply Forall_cons in Hne as [Hp Hne].
    destruct p as [|r p]; [done|].
    unfold bind at 1. rewrite for_r_in_result_run. cbv zeta.
    rewrite concat_cons, filter_app, !fmap_app, first_dup_app.
    destruct (first_dup _ ks) as [k|] eqn:Hdup.
    + by exists w1.
    + cbn [fst snd].
      destruct (IH (S n) (ds ++ (dataset_dict_of <$>
                  filter (λ r0, passes_filters sdb filt r0 = true) (r :: p)))
                  (list_to_set (dataset_key_of <$>
                     filter (λ r0, passes_filters sdb filt r0 = true) (r :: p)) ∪ ks)
                  w1 fuel)
        as (w2 & Hs2 & Hsl2 & Hfs2 & Hrun).
      * rewrite Hs. by eapply serves_listing_from_tail.
      * done.
      * simpl in Hfuel. lia.
      * exists w2. rewrite Hrun, <- app_assoc.
        repeat split; congruence.
Qed.

(** ** The source loader *)

Lemma dom_foldl_add_table l (tables : gmap string Table.t) :
  dom (foldl add_table tables l)
  = list_to_set ((table_key_short_of ∘ snd) <$> l) ∪ dom tables.
Proof.
  revert tables. induction l as [|e l IH]; intros tables; [set_solver|].
  cbn [foldl]. rewrite IH, fmap_cons, list_to_set_cons.
  unfold add_table. rewrite dom_insert_L. simpl. set_solver.
Qed.

Lemma for_table_in_subset_run db l tables w :
  for_table_in_subset db l tables w
  = let sel := filter (λ e, table_selected db e.2 = true) l in
    match first_dup ((table_key_short_of ∘ snd) <$> sel) (dom tables) with
    | Some k => (Raise (AssertionError (duplicate_table_msg k)), w)
    | None => (Ok (foldl add_table tables sel), w)
    end.
Proof.
  revert tables. induction l as [|[key_long table] l IH]; intros tables; [done|].
  cbn [for_table_in_subset]. fold (table_selected db table).
  fold (table_key_short_of table).
  destruct (table_selected db table) eqn:E.
  2: { rewrite filter_cons_False by (simpl; by rewrite E). apply IH. }
  rewrite filter_cons_True by done.
  cbv zeta. rewrite fmap_cons. cbn [first_dup compose snd].
  unfold bind, py_assert.
  rewrite (bool_decide_ext _ (table_key_short_of table ∉ dom tables))
    by (symmetry; apply not_elem_of_dom).
  rewrite bool_decide_not.
  destruct (bool_decide (table_key_short_of table ∈ dom tables)); cbn [negb]; [done|].
  unfold ret at 1. rewrite IH. cbv zeta.
  unfold add_table at 1. rewrite dom_insert_L. done.
Qed.

(** The loader raises the duplicate-key error exactly when the selected
    tables of [nodes] followed by [sources] repeat a key. *)
Lemma get_tables_from_dbt_run m db w :
  get_tables_from_dbt m db w
  = let sel := filter (λ e, table_selected db e.2 = true)
                 (Manifest.nodes m ++ Manifest.sources m) in
    match first_dup ((table_key_short_of ∘ snd) <$> sel) ∅ with
    | Some k => (Raise (AssertionError (duplicate_table_msg k)), w)
    | None =>
        if bool_decide (foldl add_table ∅ sel ≠ ∅)
        then (Ok (foldl add_table ∅ sel), w)
        else (Raise (AssertionError "Manifest is empty!"), w)
    end.
Proof.
  unfold get_tables_from_dbt. cbv zeta.
  rewrite filter_app, fmap_app, first_dup_app.
  unfold bind at 1. rewrite for_table_in_subset_run. cbv zeta. rewrite dom_empty_L.
  destruct (first_dup _ ∅) eqn:E1; [done|].
  unfold bind at 1. rewrite for_table_in_subset_run. cbv zeta.
  rewrite dom_foldl_add_table, dom_empty_L.
  destruct (first_dup _ (_ ∪ _)) eqn:E2; [done|].
  rewrite foldl_app. unfold bind, py_assert.
  by destruct (bool_decide _).
Qed.

(** ** The reconciliation engine: [merge_columns_info] *)

Section merge.
Variable convert : string → string.

(** On a dataset that carries [columns], [description] and [owners],
    [merge_columns_info] returns, leaves the world alone, and sets the
    three new keys as follows. *)
Lemma merge_columns_info_run dataset tables defaults w cols sd os :
  Dataset.columns dataset = Some cols →
  Dataset.description dataset = Some sd →
  Dataset.owners dataset = Some os →
  merge_columns_info convert dataset tables defaults w
  = (Ok (Dataset.mk (Dataset.id dataset) (Dataset.key dataset)
           (Some cols) (Some sd) (Some os)
           (Some (column_new_of convert
                    (default ∅ (Table.columns <$> tables !! Dataset.key dataset))
                    (default_columns defaults) <$> cols))
           (Some match tables !! Dataset.key dataset ≫= Table.description with
                 | None => sd
                 | Some d => Some (convert d)
                 end)
           (Some (Owner.id <$> os))), w).
Proof.
  intros Hc Hd Ho. unfold merge_columns_info, bind.
  rewrite Hc, Hd, Ho. reflexivity.
Qed.
End merge.

(** C4. For a physical column (expression absent or empty) whose name has a
    description in the matched source table and an entry in the defaults
    map, the merged column description is the plain-text conversion of the
    source description, whatever the default entry says. *)
Theorem merge_prefers_source_description convert dataset tables defaults w
    cols sd os i c t dcol d dflt :
  Dataset.columns dataset = Some cols →
  Dataset.description dataset = Some sd →
  Dataset.owners dataset = Some os →
  cols !! i = Some c →
  is_physical c →
  tables !! Dataset.key dataset = Some t →
  Table.columns t !! SstColumn.column_name c = Some dcol →
  DbtColumn.description dcol = Some d →
  default_columns defaults !! SstColumn.column_name c = Some dflt →
  ∃ dataset' columns_new,
    merge_columns_info convert dataset tables defaults w = (Ok dataset', w)
    ∧ Dataset.columns_new dataset' = Some columns_new
    ∧ columns_new !! i
      = Some (ColumnNew.mk (SstColumn.column_name c) (SstColumn.id c) (Some (convert d))).
Proof.
  intros Hc Hd Ho Hi Hphys Ht Hcol Hdesc Hdflt.
  eexists _, _. split; [by eapply merge_columns_info_run|].
  split; [reflexivity|].
  rewrite list_lookup_fmap, Hi, Ht. cbn [fmap option_fmap option_map default from_option id].
  unfold column_new_of. rewrite bool_decide_eq_true_2 by exact Hphys.
  cbv beta iota delta [id]. rewrite Hcol. cbn [mbind option_bind]. by rewrite Hdesc.
Qed.

Lemma merge_prefers_source_description_witness :
  ∃ dataset' columns_new,
    merge_columns_info example_convert example_dataset example_tables example_defaults
      example_world = (Ok dataset', example_world)
    ∧ Dataset.columns_new dataset' = Some columns_new
    ∧ columns_new !! 0%nat = Some (ColumnNew.mk "amount" 1 (Some "Order amount")).
Proof.
  apply (merge_prefers_source_description example_convert example_dataset example_tables
           example_defaults example_world [example_amount; example_margin] (Some "old")
           [Owner.mk 1] 0%nat example_amount
           (Table.mk {[ "amount" := DbtColumn.mk (Some "Order amount");
                        "margin" := DbtColumn.mk (Some "Margin from dbt") ]}
                     (Some "Orders table"))
           (DbtColumn.mk (Some "Order amount")) "Order amount"
           (DefaultCol.mk (Some "Default amount")));
    try reflexivity.
  right. reflexivity.
Defined.

(** C5. A target column whose expression is non-empty (a computed column)
    keeps its current description in [columns_new], whatever the source
    tables and the defaults map contain. *)
Theorem merge_keeps_computed_column convert dataset tables defaults w cols sd os i c e :
  Dataset.columns dataset = Some cols →
  Dataset.description dataset = Some sd →
  Dataset.owners dataset = Some os →
  cols !! i = Some c →
  SstColumn.expression c = Some e →
  e ≠ "" →
  ∃ dataset' columns_new,
    merge_columns_info convert dataset tables defaults w = (Ok dataset', w)
    ∧ Dataset.columns_new dataset' = Some columns_new
    ∧ columns_new !! i
      = Some (ColumnNew.mk (SstColumn.column_name c) (SstColumn.id c)
                (SstColumn.description c)).
Proof.
  intros Hc Hd Ho Hi He Hne.
  eexists _, _. split; [by eapply merge_columns_info_run|].
  split; [reflexivity|].
  rewrite list_lookup_fmap, Hi. cbn [fmap option_fmap option_map].
  unfold column_new_of. rewrite bool_decide_eq_false_2; [done|].
  rewrite He. intros [?|?]; congruence.
Qed.

Lemma merge_keeps_computed_column_witness :
  ∃ dataset' columns_new,
    merge_columns_info example_convert example_dataset example_tables example_defaults
      example_world = (Ok dataset', example_world)
    ∧ Dataset.columns_new dataset' = Some columns_new
    ∧ columns_new !! 1%nat = Some (ColumnNew.mk "margin" 2 (Some "revenue minus cost")).
Proof.
  apply (merge_keeps_computed_column example_convert example_dataset example_tables
           example_defaults example_world [example_amount; example_margin] (Some "old")
           [Owner.mk 1] 1%nat example_margin "revenue - cost");
    try reflexivity.
  discriminate.
Defined.



(** A source description that is present, even the empty string, is
    converted and written. *)
Lemma merge_writes_empty_source_description convert dataset tables defaults w cols sd os t :
  Dataset.columns dataset = Some cols →
  Dataset.description dataset = Some sd →
  Dataset.owners dataset = Some os →
  tables !! Dataset.key dataset = Some t →
  Table.description t = Some "" →
  ∃ dataset',
    merge_columns_info convert dataset tables defaults w = (Ok dataset', w)
    ∧ Dataset.description_new dataset' = Some (Some (convert "")).
Proof.
  intros Hc Hd Ho Ht Hdesc.
  eexists. split; [by eapply merge_columns_info_run|].
  cbn [Dataset.description_new]. rewrite Ht. cbn [mbind option_bind]. by rewrite Hdesc.
Qed.

(** C10. [merge_columns_info] leaves the keys [id], [key], [columns],
    [description] and [owners] of the dataset as they were; it sets the
    three keys [columns_new], [description_new] and [owners_new], and has
    no other effect. *)
Theorem merge_preserves_current_state convert dataset tables defaults w cols sd os :
  Dataset.columns dataset = Some cols →
  Dataset.description dataset = Some sd →
  Dataset.owners dataset = Some os →
  ∃ dataset',
    merge_columns_info convert dataset tables defaults w = (Ok dataset', w)
    ∧ Dataset.id dataset' = Dataset.id dataset
    ∧ Dataset.key dataset' = Dataset.key dataset
    ∧ Dataset.columns dataset' = Dataset.columns dataset
    ∧ Dataset.description dataset' = Dataset.description dataset
    ∧ Dataset.owners dataset' = Dataset.owners dataset
    ∧ is_Some (Dataset.columns_new dataset')
    ∧ is_Some (Dataset.description_new dataset')
    ∧ Dataset.owners_new dataset' = Some (Owner.id <$> os).
Proof.
  intros Hc Hd Ho.
  eexists. split; [by eapply merge_columns_info_run|].
  cbn. rewrite Hc, Hd, Ho. eauto 10.
Qed.

Lemma merge_preserves_current_state_witness :
  ∃ dataset',
    merge_columns_info example_convert example_dataset example_tables example_defaults
      example_world = (Ok dataset', example_world)
    ∧ Dataset.id dataset' = 1
    ∧ Dataset.key dataset' = "sales.orders"
    ∧ Dataset.columns dataset' = Some [example_amount; example_margin]
    ∧ Dataset.description dataset' = Some (Some "old")
    ∧ Dataset.owners dataset' = Some [Owner.mk 1]
    ∧ is_Some (Dataset.columns_new dataset')
    ∧ is_Some (Dataset.description_new dataset')
    ∧ Dataset.owners_new dataset' = Some [1].
Proof.
  apply (merge_preserves_current_state example_convert example_dataset example_tables
           example_defaults example_world [example_amount; example_margin] (Some "old")
           [Owner.mk 1]);
    reflexivity.
Defined.

(** ** The idempotent writer: [put_descriptions_to_superset] *)

Section writer.
Variable server : Server.

Lemma put_descriptions_run d pause w dn cn on dold cols :
  Dataset.description_new d = Some dn →
  Dataset.columns_new d = Some cn →
  Dataset.owners_new d = Some on →
  Dataset.description d = Some dold →
  Dataset.columns d = Some cols →
  put_descriptions_to_superset server d pause w
  = (if bool_decide (dn ≠ dold) || negb (check_columns_equal cn (column_old_of <$> cols))
     then
       request server "PUT"
         ("/dataset/" +:+ pretty (Dataset.id d) +:+ "?override_columns=false")
         true None (Kwargs.mk None (Some (WritePayload dn cn on)));;;
       pause_after_update pause
     else ret tt) w.
Proof.
  intros Hdn Hcn Hon Hd Hc. unfold put_descriptions_to_superset.
  rewrite Hdn, Hcn, Hon, Hd, Hc. reflexivity.
Qed.

(** A differing description or differing columns: exactly one write call,
    carrying the delta (owners included). *)
Lemma put_descriptions_writes d pause w dn cn on dold cols :
  Dataset.description_new d = Some dn →
  Dataset.columns_new d = Some cn →
  Dataset.owners_new d = Some on →
  Dataset.description d = Some dold →
  Dataset.columns d = Some cols →
  dn ≠ dold ∨ check_columns_equal cn (column_old_of <$> cols) = false →
  put_calls (put_descriptions_to_superset server d pause w).2
  = put_calls w ++ [write_call (Dataset.id d) dn cn on].
Proof.
  intros Hdn Hcn Hon Hd Hc Hdiff.
  rewrite (put_descriptions_run d pause w dn cn on dold cols) by done.
  replace (bool_decide (dn ≠ dold)
           || negb (check_columns_equal cn (column_old_of <$> cols))) with true.
  2: { symmetry. apply orb_true_iff. destruct Hdiff as [Hne| ->]; [left|by right].
       by apply bool_decide_eq_true. }
  apply (adds_puts_bind [write_call (Dataset.id d) dn cn on]).
  - apply (adds_puts_request server "PUT").
  - intros _. apply adds_puts_pause_after_update.
Qed.

(** Equal description and equal columns: nothing happens at all. *)
Lemma put_descriptions_skips d pause w dn cn on dold cols :
  Dataset.description_new d = Some dn →
  Dataset.columns_new d = Some cn →
  Dataset.owners_new d = Some on →
  Dataset.description d = Some dold →
  Dataset.columns d = Some cols →
  dn = dold →
  check_columns_equal cn (column_old_of <$> cols) = true →
  put_descriptions_to_superset server d pause w = (Ok tt, w).
Proof.
  intros Hdn Hcn Hon Hd Hc Heq Hcols.
  rewrite (put_descriptions_run d pause w dn cn on dold cols) by done.
  rewrite Hcols, bool_decide_eq_false_2 by (intros Hne; by apply Hne).
  reflexivity.
Qed.
End writer.

(** C3, as amended. The writer issues exactly one write call when the
    description differs or the columns differ, and none (and does nothing
    else) when both are equal; the owners are not compared.  The columns are
    compared after a stable sort by id, which for pairwise distinct ids is a
    comparison up to order. *)
Theorem writer_compares_description_and_columns server d pause w dn cn on dold cols :
  Dataset.description_new d = Some dn →
  Dataset.columns_new d = Some cn →
  Dataset.owners_new d = Some on →
  Dataset.description d = Some dold →
  Dataset.columns d = Some cols →
  let columns_old := column_old_of <$> cols in
  (dn ≠ dold ∨ check_columns_equal cn columns_old = false →
     put_calls (put_descriptions_to_superset server d pause w).2
     = put_calls w ++ [write_call (Dataset.id d) dn cn on])
  ∧ (dn = dold → check_columns_equal cn columns_old = true →
       put_descriptions_to_superset server d pause w = (Ok tt, w))
  ∧ (NoDup (ColumnNew.id <$> cn) →
       check_columns_equal cn columns_old = true ↔ cn ≡ₚ columns_old).
Proof.
  intros Hdn Hcn Hon Hd Hc columns_old. split; [|split].
  - by apply put_descriptions_writes.
  - by eapply put_descriptions_skips.
  - apply check_columns_equal_perm.
Qed.

Lemma writer_compares_description_and_columns_witness :
  put_calls (put_descriptions_to_superset accepting_server example_merged 2 example_world).2
  = [write_call 1 (Some "Orders table")
       [ColumnNew.mk "amount" 1 (Some "Order amount");
        ColumnNew.mk "margin" 2 (Some "revenue minus cost")] [1]].
Proof.
  destruct (writer_compares_description_and_columns accepting_server example_merged 2
              example_world (Some "Orders table")
              [ColumnNew.mk "amount" 1 (Some "Order amount");
               ColumnNew.mk "margin" 2 (Some "revenue minus cost")]
              [1] (Some "old") [example_amount; example_margin])
    as (Hwrite & _ & _); [reflexivity..|].
  apply Hwrite. left. discriminate.
Defined.

(** C3 as stated fails: it would have the writer issue one write call
    whenever description, columns or owners differ.  In
    [example_owner_delta] the owners differ and no call is issued. *)
Lemma writer_ignores_owner_difference :
  ¬ (∀ server d pause w dn cn on dold cols os,
       Dataset.description_new d = Some dn →
       Dataset.columns_new d = Some cn →
       Dataset.owners_new d = Some on →
       Dataset.description d = Some dold →
       Dataset.columns d = Some cols →
       Dataset.owners d = Some os →
       (delta_differs dn dold cn cols on os →
          put_calls (put_descriptions_to_superset server d pause w).2
          = put_calls w ++ [write_call (Dataset.id d) dn cn on])
       ∧ (¬ delta_differs dn dold cn cols on os →
            put_calls (put_descriptions_to_superset server d pause w).2 = put_calls w)).
Proof.
  intros Hclaim.
  destruct (Hclaim accepting_server example_owner_delta 2 example_world (Some "old")
              [ColumnNew.mk "amount" 1 (Some "")] [2] (Some "old") [example_amount]
              [Owner.mk 1]) as [Hwrite _]; [reflexivity..|].
  assert (delta_differs (Some "old") (Some "old") [ColumnNew.mk "amount" 1 (Some "")]
            [example_amount] [2] [Owner.mk 1]) as Hdiff
    by (right; right; discriminate).
  specialize (Hwrite Hdiff). vm_compute in Hwrite. discriminate.
Qed.

(** C1, as amended. Calling the writer twice in succession, the second time
    on the remote state that reflects the written payload, issues one write
    call the first time, provided the description or the columns of the
    delta differ from the current state, and does nothing the second time. *)
Theorem writer_is_idempotent server d d' pause w dn cn on dold cols :
  Dataset.description_new d = Some dn →
  Dataset.columns_new d = Some cn →
  Dataset.owners_new d = Some on →
  Dataset.description d = Some dold →
  Dataset.columns d = Some cols →
  reflects_write d d' →
  let w1 := (put_descriptions_to_superset server d pause w).2 in
  (dn ≠ dold ∨ check_columns_equal cn (column_old_of <$> cols) = false →
     put_calls w1 = put_calls w ++ [write_call (Dataset.id d) dn cn on])
  ∧ put_descriptions_to_superset server d' pause w1 = (Ok tt, w1).
Proof.
  intros Hdn Hcn Hon Hd Hc (Hid & Hdn' & Hcn' & Hon' & Hd' & cn' & cols' & Hcn2 & Hc' & Hrefl) w1.
  split; [by apply put_descriptions_writes|].
  rewrite Hcn in Hcn2. injection Hcn2 as <-.
  eapply (put_descriptions_skips server d' pause w1 dn cn on dn cols'); try congruence.
  destruct Hrefl as [->|[Hnd Hperm]]; [apply check_columns_equal_refl|].
  by apply check_columns_equal_perm.
Qed.

Lemma writer_is_idempotent_witness :
  let w1 := (put_descriptions_to_superset accepting_server example_merged 2
               example_world).2 in
  length (put_calls w1) = 1%nat
  ∧ put_descriptions_to_superset accepting_server example_rewritten 2 w1 = (Ok tt, w1).
Proof.
  destruct (writer_is_idempotent accepting_server example_merged example_rewritten 2
              example_world (Some "Orders table")
              [ColumnNew.mk "amount" 1 (Some "Order amount");
               ColumnNew.mk "margin" 2 (Some "revenue minus cost")]
              [1] (Some "old") [example_amount; example_margin])
    as (Hfirst & Hsecond); [reflexivity..| |].
  - repeat (split; [reflexivity|]).
    eexists _, _. repeat (split; [reflexivity|]).
    right. split.
    + apply (NoDup_fmap_2_strong ColumnNew.id).
      * intros x y Hx Hy. vm_compute. 
        rewrite !elem_of_cons, !elem_of_nil in Hx, Hy.
        destruct Hx as [->|[->|[]]], Hy as [->|[->|[]]]; simpl; congruence.
      * repeat constructor; rewrite ?elem_of_cons, ?elem_of_nil; intuition congruence.
    + apply Permutation_swap.
  - split; [|exact Hsecond].
    rewrite Hfirst by (left; discriminate). reflexivity.
Defined.

(** C1 as stated fails: it would have the first call issue a write
    whenever the delta differs from the current state.  In
    [example_owner_removed] the delta differs (in the owners) and the first
    call issues none. *)
Lemma writer_first_call_skips_owner_delta :
  ¬ (∀ server d d' pause w dn cn on dold cols os,
       Dataset.description_new d = Some dn →
       Dataset.columns_new d = Some cn →
       Dataset.owners_new d = Some on →
       Dataset.description d = Some dold →
       Dataset.columns d = Some cols →
       Dataset.owners d = Some os →
       reflects_write d d' →
       delta_differs dn dold cn cols on os →
       let w1 := (put_descriptions_to_superset server d pause w).2 in
       put_calls w1 = put_calls w ++ [write_call (Dataset.id d) dn cn on]
       ∧ put_calls (put_descriptions_to_superset server d' pause w1).2 = put_calls w1).
Proof.
  intros Hclaim.
  destruct (Hclaim accepting_server example_owner_removed example_owner_removed 2
              example_world None [] [3] None [] [Owner.mk 3; Owner.mk 7])
    as [Hfirst _]; try reflexivity.
  - repeat (split; [reflexivity|]).
    eexists _, _. repeat (split; [reflexivity|]). by left.
  - right. right. discriminate.
  - vm_compute in Hfirst. discriminate.
Qed.

(** ** Duplicate keys and complete listings *)

Lemma listing_server_serves url pages : serves_listing (listing_server pages) url pages.
Proof. intros history headers i Hi. by cbn. Qed.

Lemma lookup_two_split {A} (l : list A) i j x y :
  (i < j)%nat → l !! i = Some x → l !! j = Some y →
  ∃ l1 l2 l3, l = l1 ++ x :: l2 ++ y :: l3.
Proof.
  intros Hij Hi Hj.
  exists (take i l), (take (j - S i) (drop (S i) l)), (drop (S (j - S i)) (drop (S i) l)).
  rewrite (take_drop_middle (drop (S i) l) (j - S i) y).
  - by rewrite take_drop_middle.
  - rewrite lookup_drop. by replace (S i + (j - S i))%nat with j by lia.
Qed.

(** Two accepted entries at different positions with the same key are
    detected, whatever was seen before. *)
Lemma first_dup_filter_repeated {A} (P : A → Prop) `{!∀ x, Decision (P x)}
    (f : A → string) (l : list A) seen i j x y :
  l !! i = Some x → l !! j = Some y → i ≠ j → P x → P y → f x = f y →
  is_Some (first_dup (f <$> filter P l) seen).
Proof.
  assert (∀ i j x y, (i < j)%nat → l !! i = Some x → l !! j = Some y →
            P x → P y → f x = f y → is_Some (first_dup (f <$> filter P l) seen)) as Hlt.
  { clear. intros i j x y Hij Hi Hj Hx Hy Hxy.
    destruct (lookup_two_split l i j x y Hij Hi Hj) as (l1 & l2 & l3 & ->).
    rewrite filter_app, filter_cons_True, filter_app, filter_cons_True by done.
    rewrite fmap_app, fmap_cons, fmap_app, fmap_cons.
    eapply (first_dup_repeated _ _ (length (f <$> filter P l1))
              (length (f <$> filter P l1) + S (length (f <$> filter P l2)))).
    - by apply list_lookup_middle.
    - rewrite lookup_app_r by lia.
      replace (_ + _ - _)%nat with (S (length (f <$> filter P l2))) by lia.
      rewrite <- Hxy. by apply (list_lookup_middle (f <$> filter P l2)).
    - lia. }
  intros Hi Hj Hij Hx Hy Hxy.
  destruct (decide (i < j)%nat); [by eapply (Hlt i j x y)|].
  eapply (Hlt j i y x); [lia|done..].
Qed.

(** C6. When two listed entities that pass the filters map to the same
    key, [get_datasets_from_superset] raises the duplicate-key assertion
    and returns no collection; when two selected manifest tables map to the
    same key, so does [get_tables_from_dbt]. *)
Theorem duplicate_key_is_fatal :
  (∀ server pages w fuel superset_db_id dataset_filter i j r1 r2,
     serves_listing server (Superset.api_url (World.session w)) pages →
     Forall (λ p, p ≠ []) pages →
     (length pages < fuel)%nat →
     concat pages !! i = Some r1 →
     concat pages !! j = Some r2 →
     i ≠ j →
     passes_filters superset_db_id dataset_filter r1 = true →
     passes_filters superset_db_id dataset_filter r2 = true →
     dataset_key_of r1 = dataset_key_of r2 →
     ∃ k w',
       get_datasets_from_superset server fuel superset_db_id dataset_filter w
       = (Raise (AssertionError (duplicate_dataset_msg k)), w'))
  ∧ (∀ dbt_manifest dbt_db_name w i j e1 e2,
       (Manifest.nodes dbt_manifest ++ Manifest.sources dbt_manifest) !! i = Some e1 →
       (Manifest.nodes dbt_manifest ++ Manifest.sources dbt_manifest) !! j = Some e2 →
       i ≠ j →
       table_selected dbt_db_name e1.2 = true →
       table_selected dbt_db_name e2.2 = true →
       table_key_short_of e1.2 = table_key_short_of e2.2 →
       ∃ k,
         get_tables_from_dbt dbt_manifest dbt_db_name w
         = (Raise (AssertionError (duplicate_table_msg k)), w)).
Proof.
  split.
  - intros server pages w fuel sdb filt i j r1 r2 Hserve Hne Hfuel Hi Hj Hij H1 H2 Hkey.
    destruct (while_pages_run server sdb filt pages 0%nat [] ∅ w fuel Hserve Hne Hfuel)
      as (w' & _ & _ & _ & Hrun).
    destruct (first_dup_filter_repeated (λ r, passes_filters sdb filt r = true)
                dataset_key_of (concat pages) ∅ i j r1 r2) as [k Hk]; [done..|].
    rewrite Hk in Hrun. exists k, w'.
    unfold get_datasets_from_superset, bind. by rewrite Hrun.
  - intros m db w i j e1 e2 Hi Hj Hij H1 H2 Hkey.
    destruct (first_dup_filter_repeated (λ e, table_selected db e.2 = true)
                (table_key_short_of ∘ snd) (Manifest.nodes m ++ Manifest.sources m)
                ∅ i j e1 e2) as [k Hk]; [done..|].
    exists k. rewrite get_tables_from_dbt_run. cbv zeta. by rewrite Hk.
Qed.

Lemma duplicate_key_is_fatal_witness :
  (∃ k w',
     get_datasets_from_superset (listing_server [[example_orders; example_orders_copy]])
       2 None None example_world
     = (Raise (AssertionError (duplicate_dataset_msg k)), w'))
  ∧ (∃ k,
       get_tables_from_dbt example_duplicate_manifest None example_world
       = (Raise (AssertionError (duplicate_table_msg k)), example_world)).
Proof.
  destruct duplicate_key_is_fatal as [Hfetch Hload]. split.
  - apply (Hfetch (listing_server [[example_orders; example_orders_copy]])
             [[example_orders; example_orders_copy]] example_world 2%nat None None
             0%nat 1%nat example_orders example_orders_copy);
      try reflexivity.
    + apply listing_server_serves.
    + repeat constructor. discriminate.
    + simpl. lia.
    + discriminate.
  - apply (Hload example_duplicate_manifest None example_world 0%nat 1%nat
             ("model.shop.orders", example_orders_table)
             ("source.shop.sales.orders", example_orders_table));
      try reflexivity.
    discriminate.
Defined.

Lemma filter_all {A} (P : A → Prop) `{!∀ x, Decision (P x)} (l : list A) :
  Forall P l → filter P l = l.
Proof.
  induction 1 as [|x l Hx Hl IH]; [done|].
  by rewrite filter_cons_True, IH.
Qed.

Lemma physical_passes_without_filters r :
  RawDataset.kind r = "physical" → passes_filters None None r = true.
Proof. intros H. unfold passes_filters, passes_kind_db. by rewrite H. Qed.

(** C7, as amended. For a listing that consists of at least one non-empty
    page of physical records, with pairwise distinct keys, followed by one
    empty page, and with no database-id or key-substring filter, the
    fetcher terminates and returns exactly the records of the non-empty
    pages (as [id] and [key]), in page-then-record order. *)
Theorem fetcher_returns_all_records server pages w fuel :
  serves_listing server (Superset.api_url (World.session w)) pages →
  Forall (λ p, p ≠ []) pages →
  Forall (λ r, RawDataset.kind r = "physical") (concat pages) →
  pages ≠ [] →
  NoDup (dataset_key_of <$> concat pages) →
  (length pages < fuel)%nat →
  ∃ w',
    get_datasets_from_superset server fuel None None w
    = (Ok (dataset_dict_of <$> concat pages), w').
Proof.
  intros Hserve Hne Hphys Hsome Hnd Hfuel.
  destruct (while_pages_run server None None pages 0%nat [] ∅ w fuel Hserve Hne Hfuel)
    as (w' & _ & _ & _ & Hrun).
  rewrite filter_all in Hrun
    by (eapply Forall_impl; [exact Hphys|]; apply physical_passes_without_filters).
  assert (first_dup (dataset_key_of <$> concat pages) ∅ = None) as Hdup
    by (apply first_dup_None; split; [done|set_solver]).
  rewrite Hdup in Hrun. exists w'.
  unfold get_datasets_from_superset, bind. rewrite Hrun. cbn [app].
  unfold py_assert. rewrite bool_decide_eq_true_2; [done|].
  destruct pages as [|[|r p] pages]; [done| |done].
  by apply Forall_cons in Hne as [? _].
Qed.

Lemma fetcher_returns_all_records_witness :
  ∃ w',
    get_datasets_from_superset (listing_server [[example_orders]; [example_customers]])
      3 None None example_world
    = (Ok [dataset_dict_of example_orders; dataset_dict_of example_customers], w').
Proof.
  apply (fetcher_returns_all_records (listing_server [[example_orders]; [example_customers]])
           [[example_orders]; [example_customers]] example_world 3%nat).
  - apply listing_server_serves.
  - repeat constructor; discriminate.
  - repeat constructor.
  - discriminate.
  - cbn. repeat constructor; rewrite ?elem_of_cons, ?elem_of_nil; intuition discriminate.
  - simpl. lia.
Defined.

(** C7 as stated fails: it would have the fetcher return all records of
    every such listing.  A listing whose page holds two physical records
    with the same key makes it raise, whatever the iteration bound. *)
Lemma fetcher_rejects_listing_with_repeated_key :
  ¬ (∀ server pages w,
       serves_listing server (Superset.api_url (World.session w)) pages →
       Forall (λ p, p ≠ []) pages →
       Forall (λ r, RawDataset.kind r = "physical") (concat pages) →
       ∃ fuel w',
         get_datasets_from_superset server fuel None None w
         = (Ok (dataset_dict_of <$> concat pages), w')).
Proof.
  intros Hclaim.
  destruct (Hclaim (listing_server [[example_orders; example_orders_copy]])
              [[example_orders; example_orders_copy]] example_world)
    as (fuel & w' & Hrun).
  - apply listing_server_serves.
  - repeat constructor. discriminate.
  - repeat constructor.
  - destruct fuel as [|fuel]; [discriminate|].
    destruct fuel as [|fuel]; vm_compute in Hrun; discriminate.
Qed.

(** ** The credential session: refresh and retry *)

(** What [Superset.request] does when the answer is 401 with the expiry
    marker and the refresh succeeds: it sends the refresh request and then
    one more request with the same method, URL and headers (carrying the new
    token), but without the keyword arguments of the call. *)
Lemma request_retries_once server m e h k w rt tok :
  let self := World.session w in
  let url := Superset.api_url self +:+ e in
  let req1 := HttpRequest.mk m url (auth_headers self (default ∅ h)) k in
  let req2 := HttpRequest.mk "POST" (Superset.api_url self +:+ "/security/refresh")
                (auth_headers self {[ "Authorization" := bearer rt ]}) Kwargs.none in
  let req3 := HttpRequest.mk m url (auth_headers (refreshed self tok) (default ∅ h))
                Kwargs.none in
  let res1 := server (World.wire w) req1 in
  let res2 := server (World.wire w ++ [req1]) req2 in
  Response.status_code res1 = 401 →
  Body.msg (Response.json res1) = Some "Token has expired" →
  Superset.refresh_token self = Some rt →
  (400 <=? Response.status_code res2) && (Response.status_code res2 <? 600) = false →
  Body.access_token (Response.json res2) = Some tok →
  World.wire (request server m e true h k w).2 = World.wire w ++ [req1; req2; req3].
Proof.
  intros self url req1 req2 req3 res1 res2 Hst Hmsg Hrt Hok Htok.
  unfold request, request_with.
  unfold bind at 1. unfold log_call at 1.
  unfold bind at 1. unfold get_session at 1.
  unfold bind at 1. rewrite headers_run. cbn [World.session World.wire].
  unfold bind at 1. unfold requests_request at 1. cbn [World.session World.wire].
  fold self url req1 res1.
  unfold bind at 1. rewrite Hst.
  unfold token_has_expired. rewrite bool_decide_eq_true_2 by exact Hmsg.
  cbn [andb Z.eqb Pos.eqb].
  unfold bind at 1. unfold _refresh_access_token at 1.
  unfold bind at 1. unfold get_session at 1. cbn [World.session]. fold self.
  rewrite Hrt.
  unfold bind at 1. unfold request_with at 1.
  unfold bind at 1. unfold log_call at 1.
  unfold bind at 1. unfold get_session at 1.
  unfold bind at 1. rewrite headers_run. cbn [World.session World.wire default from_option].
  unfold bind at 1. unfold requests_request at 1. cbn [World.session World.wire].
  fold self. cbv beta iota delta [id]. fold req2 res2.
  unfold bind at 1. cbn [andb]. unfold ret at 1.
  unfold bind at 1. unfold raise_for_status at 1. rewrite Hok. unfold ret at 1 2.
  rewrite Htok. cbn [subscript]. unfold bind at 1. unfold ret at 1.
  unfold bind at 1. unfold get_session at 1. cbn [World.session].
  unfold bind at 1. unfold set_session at 1. cbn [World.session World.wire].
  unfold ret at 1.
  unfold bind at 1. rewrite headers_run. cbn [World.session World.wire].
  unfold requests_request at 1. cbn [World.session World.wire].
  unfold bind, raise_for_status.
  fold self. fold (refreshed self tok). fold url. fold req3.
  match goal with |- context [if ?b then raise _ else ret _] => destruct b end;
    cbn; by rewrite <- !app_assoc.
Qed.

(** C2. The code at a failing input: a write whose first answer is 401 with
    the expiry marker, with a refresh that succeeds.  One retry is sent,
    with the method, the URL and the refreshed token, but its keyword
    arguments are empty: the JSON body of the original request is gone. *)
Theorem retry_drops_request_kwargs :
  let url := "http://superset/api/v1/dataset/1?override_columns=false" in
  let call := request expiring_server "PUT" "/dataset/1?override_columns=false" true None
                example_write_kwargs example_world in
  call.1 = Ok Body.empty
  ∧ World.wire call.2
    = [HttpRequest.mk "PUT" url {[ "Authorization" := "Bearer stale" ]} example_write_kwargs;
       HttpRequest.mk "POST" "http://superset/api/v1/security/refresh"
         {[ "Authorization" := "Bearer refresh-me" ]} Kwargs.none;
       HttpRequest.mk "PUT" url {[ "Authorization" := "Bearer fresh" ]} Kwargs.none]
  ∧ example_write_kwargs ≠ Kwargs.none.
Proof. split; [|split]; [vm_compute; reflexivity..|discriminate]. Qed.

(** ** Start-up of [main] *)

(** C9. The code at the failing input: without a username (whatever the
    password, in particular without one) [main] stops before any network
    call or write, but with the [NameError] of the unbound name
    [superset_refresh_token], not with the missing-credentials assertion. *)
Theorem main_without_username_raises_NameError server convert fuel dbt_project_dir
    dbt_db_name superset_url superset_db_id dataset_filter superset_refresh_columns
    superset_pause_after_update default_descriptions_yaml_path password w :
  main server convert fuel dbt_project_dir dbt_db_name superset_url superset_db_id
    dataset_filter superset_refresh_columns superset_pause_after_update
    default_descriptions_yaml_path None password w
  = (Raise (NameError "superset_refresh_token"), w)
  ∧ NameError "superset_refresh_token" ≠ AssertionError missing_credentials_msg.
Proof. split; [reflexivity | discriminate]. Qed.

(** A listing without any record makes the fetcher raise as well. *)
Lemma fetcher_rejects_empty_listing server w fuel :
  serves_listing server (Superset.api_url (World.session w)) [] →
  (0 < fuel)%nat →
  ∃ w',
    get_datasets_from_superset server fuel None None w
    = (Raise (AssertionError "There are no datasets in Superset!"), w').
Proof.
  intros Hserve Hfuel.
  destruct (while_pages_run server None None [] 0%nat [] ∅ w fuel Hserve) as
    (w' & _ & _ & _ & Hrun); [constructor|simpl; lia|].
  exists w'. unfold get_datasets_from_superset, bind. by rewrite Hrun.
Qed.

(** With a username and no password the check passes and the login request
    goes out. *)
Example main_with_username_only_attempts_login :
  let run := main accepting_server example_convert 1 "." None "http://superset" None None
               false 2 None (Some "admin") None example_world in
  run.1 = Raise (KeyError "access_token")
  ∧ World.wire run.2
    = [HttpRequest.mk "POST" "http://superset/api/v1/security/login" ∅
         (Kwargs.mk None (Some (AuthPayload (Some "admin") None "db" true)))].
Proof. split; vm_compute; reflexivity. Qed.

(** ** A complete run

    The end-to-end scenario, twice in a row against [demo_server]: the first
    run writes the delta once and pauses; the second run finds the written
    state and writes nothing. *)
Example main_first_run_writes_once :
  let run := demo_run demo_world in
  run.1 = Ok tt
  ∧ put_calls run.2
    = [write_call 10 (Some "Orders table")
         [ColumnNew.mk "amount" 1 (Some "Order amount");
          ColumnNew.mk "margin" 2 (Some "revenue minus cost")] [1]]
  ∧ World.slept run.2 = [2].
Proof. repeat split; vm_compute; reflexivity. Qed.

Example main_second_run_writes_nothing :
  let first := demo_run demo_world in
  let second := demo_run first.2 in
  second.1 = Ok tt
  ∧ put_calls second.2 = put_calls first.2
  ∧ World.slept second.2 = World.slept first.2.
Proof. repeat split; vm_compute; reflexivity. Qed.

(** * Further properties *)

(** ** Frames of computations *)

Lemma preserves_ret {X A} (proj : World.t → X) (a : A) : preserves proj (ret a).
Proof. by intros w. Qed.

Lemma preserves_raise {X A} (proj : World.t → X) e : preserves proj (@raise A e).
Proof. by intros w. Qed.

Lemma preserves_bind {X A B} (proj : World.t → X) (m : M A) (k : A → M B) :
  preserves proj m → (∀ a, preserves proj (k a)) → preserves proj (bind m k).
Proof.
  intros Hm Hk w. unfold bind. specialize (Hm w).
  destruct (m w) as [[a|e|] w']; simpl in *; [|done..].
  by rewrite (Hk a w').
Qed.

Lemma preserves_try_except {X A} (proj : World.t → X) (body : M A) handler :
  preserves proj body → (∀ s, preserves proj (handler s)) →
  preserves proj (try_except_HTTPError body handler).
Proof.
  intros Hb Hh w. unfold try_except_HTTPError. specialize (Hb w).
  destruct (body w) as [[a|[]|] w']; simpl in *; try done.
  by rewrite (Hh _ w').
Qed.

Lemma preserves_get_session {X} (proj : World.t → X) : preserves proj get_session.
Proof. by intros w. Qed.

Lemma preserves_subscript {X A} (proj : World.t → X) k (o : option A) :
  preserves proj (subscript k o).
Proof. by destruct o. Qed.

Lemma preserves_py_assert {X} (proj : World.t → X) b msg : preserves proj (py_assert b msg).
Proof. by destruct b. Qed.

Lemma preserves_raise_for_status {X} (proj : World.t → X) r :
  preserves proj (raise_for_status r).
Proof. unfold raise_for_status. by case_match. Qed.

Lemma preserves_headers {X} (proj : World.t → X) h : preserves proj (_headers h).
Proof. intros w. by rewrite headers_run. Qed.

Lemma preserves_read_file {X} (proj : World.t → X) path : preserves proj (read_file path).
Proof. intros w. unfold read_file. by case_match. Qed.

Lemma preserves_log_call {X} (proj : World.t → X) m e k :
  ignores_traffic proj → preserves proj (log_call m e k).
Proof. intros H [s wi c sl f]. apply H. Qed.

Lemma preserves_requests_request {X} (proj : World.t → X) server m u h k :
  ignores_traffic proj → preserves proj (requests_request server m u h k).
Proof. intros H [s wi c sl f]. apply H. Qed.

Lemma preserves_set_session {X} (proj : World.t → X) s :
  ignores_session proj → preserves proj (set_session s).
Proof. intros H [s0 wi c sl f]. apply H. Qed.

Lemma preserves_time_sleep {X} (proj : World.t → X) secs :
  ignores_slept proj → preserves proj (time_sleep secs).
Proof.
  intros H [s wi c sl f]. unfold time_sleep. case_match; [done|]. apply H.
Qed.

Lemma preserves_pause_after_update {X} (proj : World.t → X) secs :
  ignores_slept proj → preserves proj (pause_after_update secs).
Proof.
  intros H. unfold pause_after_update.
  case_match; [apply preserves_ret | by apply preserves_time_sleep].
Qed.

Create HintDb frame.
#[local] Hint Resolve preserves_ret preserves_raise preserves_get_session
  preserves_subscript preserves_py_assert preserves_raise_for_status preserves_headers
  preserves_read_file preserves_log_call preserves_requests_request
  preserves_set_session preserves_time_sleep preserves_pause_after_update : frame.

(** Walks through a computation built from steps known to preserve [proj]. *)
Ltac frame :=
  repeat first
    [ apply preserves_bind; [|intros ?]
    | apply preserves_try_except; [|intros ?]
    | progress eauto with frame
    | match goal with |- preserves _ (if ?b then _ else _) => destruct b end
    | match goal with |- preserves _ (match ?b with _ => _ end) => destruct b end ].

Section request_frame.
Context {X : Type} (proj : World.t → X).
Hypothesis Htraffic : ignores_traffic proj.
Hypothesis Htoken : ignores_access_token proj.
Variable server : Server.

Lemma preserves_request_with r m e flag h k :
  preserves proj r → preserves proj (request_with server r m e flag h k).
Proof. intros Hr. unfold request_with. frame. Qed.

Lemma preserves_refresh_access_token : preserves proj (_refresh_access_token server).
Proof.
  unfold _refresh_access_token.
  apply preserves_bind; [frame|intros self].
  destruct (Superset.refresh_token self); [|frame].
  apply preserves_bind; [by apply preserves_request_with, preserves_ret|intros res].
  apply preserves_bind; [frame|intros tok].
  intros [[u n p t r] wi c sl f]. cbn. apply Htoken.
Qed.

Lemma preserves_request m e flag h k : preserves proj (request server m e flag h k).
Proof. apply preserves_request_with, preserves_refresh_access_token. Qed.
End request_frame.

Lemma stable_part_ignores_traffic : ignores_traffic stable_part.
Proof. by intros s wi c sl f wi' c'. Qed.

Lemma stable_part_ignores_access_token : ignores_access_token stable_part.
Proof. by intros u n p t r t' wi c sl f. Qed.

(** X1. A call of [Superset.request] changes nothing of the session but the
    access token: the base URL, the credentials and the refresh token stay,
    and so do the sleeps and the files, whatever the server answers and
    however the call ends. *)
Theorem request_keeps_stable_part server method endpoint refresh_token_if_needed
    headers request_kwargs w :
  stable_part (request server method endpoint refresh_token_if_needed headers
                 request_kwargs w).2
  = stable_part w.
Proof.
  apply (preserves_request stable_part stable_part_ignores_traffic
           stable_part_ignores_access_token).
Qed.

(** ** How many requests a call sends *)

Lemma sends_weaken {A} n n' (m : M A) : sends n m → (n ≤ n')%nat → sends n' m.
Proof. intros Hm Hle w. destruct (Hm w) as (extra & -> & Hlen). exists extra. split; [done|lia]. Qed.

Lemma sends_bind {A B} n1 n2 (m : M A) (k : A → M B) :
  sends n1 m → (∀ a, sends n2 (k a)) → sends (n1 + n2) (bind m k).
Proof.
  intros Hm Hk w. unfold bind. destruct (Hm w) as (extra1 & H1 & Hlen1).
  destruct (m w) as [[a|e|] w']; simpl in *.
  - destruct (Hk a w') as (extra2 & H2 & Hlen2).
    exists (extra1 ++ extra2). rewrite H2, H1, app_assoc, length_app. split; [done|lia].
  - exists extra1. split; [done|lia].
  - exists extra1. split; [done|lia].
Qed.

Lemma sends_nothing {A} (m : M A) :
  (∀ w, World.wire (m w).2 = World.wire w) → sends 0 m.
Proof. intros H w. exists []. by rewrite H, app_nil_r. Qed.

Lemma sends_ret {A} (a : A) : sends 0 (ret a).
Proof. by apply sends_nothing. Qed.

Lemma sends_raise {A} e : sends 0 (@raise A e).
Proof. by apply sends_nothing. Qed.

Lemma sends_requests_request server m u h k : sends 1 (requests_request server m u h k).
Proof. intros w. by exists [HttpRequest.mk m u h k]. Qed.

Lemma sends_nothing_bind {A B} n (m : M A) (k : A → M B) :
  (∀ w, World.wire (m w).2 = World.wire w) → (∀ a, sends n (k a)) → sends n (bind m k).
Proof. intros Hm Hk. apply (sends_bind 0 n); [by apply sends_nothing|done]. Qed.

Lemma wire_headers h w : World.wire (_headers h w).2 = World.wire w.
Proof. by rewrite headers_run. Qed.

Lemma wire_subscript {A} k (o : option A) w : World.wire (subscript k o w).2 = World.wire w.
Proof. by destruct o. Qed.

Lemma wire_raise_for_status r w : World.wire (raise_for_status r w).2 = World.wire w.
Proof. unfold raise_for_status. by case_match. Qed.

Lemma sends_tail r (res : Response.t) :
  sends 0 (raise_for_status r;;; ret (Response.json res)).
Proof.
  apply sends_nothing_bind; [apply wire_raise_for_status|]. intros _. apply sends_ret.
Qed.

(** Without [refresh_token_if_needed] a call sends its one request. *)
Lemma sends_request_with_no_refresh server r m e h k :
  sends 1 (request_with server r m e false h k).
Proof.
  unfold request_with. cbn [andb].
  apply sends_nothing_bind; [done|intros _].
  apply sends_nothing_bind; [done|intros self].
  apply sends_nothing_bind; [apply wire_headers|intros hs].
  apply (sends_bind 1 0); [apply sends_requests_request|intros res].
  apply sends_nothing_bind; [done|intros res']. apply sends_tail.
Qed.

Lemma sends_refresh_access_token server : sends 1 (_refresh_access_token server).
Proof.
  unfold _refresh_access_token.
  apply sends_nothing_bind; [done|intros self].
  destruct (Superset.refresh_token self); [|apply (sends_weaken 0); [apply sends_ret|lia]].
  apply (sends_bind 1 0); [apply sends_request_with_no_refresh|intros res].
  apply sends_nothing_bind; [apply wire_subscript|intros tok].
  apply sends_nothing_bind; [done|intros self'].
  apply sends_nothing_bind; [done|intros _]. apply sends_ret.
Qed.

(** X2. A call of [Superset.request] first sends the request it was asked
    for, with the session's bearer token and its keyword arguments, and
    after it at most two more (the refresh and one retry); with
    [refresh_token_if_needed=False] it sends nothing more.  Requests sent
    earlier stay on the wire. *)
Theorem request_sends_at_most_three server method endpoint refresh_token_if_needed
    headers request_kwargs w :
  ∃ extra,
    World.wire (request server method endpoint refresh_token_if_needed headers
                  request_kwargs w).2
    = World.wire w ++ first_request w method endpoint headers request_kwargs :: extra
    ∧ (length extra ≤ 2)%nat
    ∧ (refresh_token_if_needed = false → extra = []).
Proof.
  unfold request, request_with.
  unfold bind at 1. unfold log_call at 1.
  unfold bind at 1. unfold get_session at 1.
  unfold bind at 1. rewrite headers_run. cbn [World.session].
  unfold bind at 1. unfold requests_request at 1. cbn [World.wire World.session].
  fold (first_request w method endpoint headers request_kwargs).
  set (req := first_request w method endpoint headers request_kwargs).
  set (res := server (World.wire w) req).
  set (w1 := World.mk _ (World.wire w ++ [req]) _ _ _).
  destruct refresh_token_if_needed.
  - assert (sends 2
      (let* res' :=
         (if true && (Response.status_code res =? 401)
             && token_has_expired (Response.json res)
          then
            let* refreshed := _refresh_access_token server in
            if (refreshed : bool)
            then let* hs := _headers (default ∅ headers) in
                 requests_request server method
                   (Superset.api_url (World.session w) +:+ endpoint) hs Kwargs.none
            else ret res
          else ret res) in
       raise_for_status res';;; ret (Response.json res'))) as Hsends.
    { apply (sends_bind 2 0); [|intros ?; apply sends_tail].
      destruct (_ && _); [|apply (sends_weaken 0); [apply sends_ret|lia]].
      apply (sends_bind 1 1); [apply sends_refresh_access_token|intros [|]].
      - apply sends_nothing_bind; [apply wire_headers|intros hs].
        apply sends_requests_request.
      - apply (sends_weaken 0); [apply sends_ret|lia]. }
    destruct (Hsends w1) as (extra & Hwire & Hlen).
    exists extra. rewrite Hwire. subst w1. cbn [World.wire].
    rewrite <- app_assoc. split; [reflexivity|]. split; [exact Hlen|discriminate].
  - exists []. split; [|split; [simpl; lia|done]]. cbn [andb].
    unfold bind, raise_for_status. unfold ret at 1.
    destruct ((400 <=? _) && _); reflexivity.
Qed.

(** ** The outcomes of [Superset.request] *)

Lemma request_tail_run (res : Response.t) w :
  (raise_for_status res;;; ret (Response.json res)) w = (outcome_of res, w).
Proof.
  unfold bind, raise_for_status, outcome_of, is_error_status.
  by destruct ((400 <=? _) && _).
Qed.

Lemma request_with_unfold server r m e flag h k w :
  request_with server r m e flag h k w
  = (let res := server (World.wire w) (first_request w m e h k) in
     let* res' :=
       (if flag && (Response.status_code res =? 401)
           && token_has_expired (Response.json res)
        then
          let* refreshed := r in
          if (refreshed : bool)
          then let* hs := _headers (default ∅ h) in
               requests_request server m (Superset.api_url (World.session w) +:+ e) hs
                 Kwargs.none
          else ret res
        else ret res) in
     raise_for_status res';;; ret (Response.json res'))
      (after_first_request w m e h k).
Proof.
  unfold request_with.
  unfold bind at 1. unfold log_call at 1.
  unfold bind at 1. unfold get_session at 1.
  unfold bind at 1. rewrite headers_run. cbn [World.session].
  unfold bind at 1. unfold requests_request at 1. cbn [World.wire World.session].
  reflexivity.
Qed.

(** When no refresh applies, the call ends with the first answer. *)
Lemma request_with_single server r m e flag h k w :
  let res := server (World.wire w) (first_request w m e h k) in
  flag && (Response.status_code res =? 401) && token_has_expired (Response.json res)
  = false →
  request_with server r m e flag h k w = (outcome_of res, after_first_request w m e h k).
Proof.
  intros res Hcond. rewrite request_with_unfold. cbv zeta. fold res. rewrite Hcond.
  unfold bind at 1. unfold ret at 1. apply request_tail_run.
Qed.

(** [_refresh_access_token] as a function of the server's answer. *)
Lemma refresh_access_token_run server w :
  _refresh_access_token server w
  = match Superset.refresh_token (World.session w) with
    | None => (Ok false, w)
    | Some rt =>
        let hs := Some {[ "Authorization" := bearer rt ]} in
        let res := server (World.wire w)
                     (first_request w "POST" "/security/refresh" hs Kwargs.none) in
        let w1 := after_first_request w "POST" "/security/refresh" hs Kwargs.none in
        if is_error_status (Response.status_code res)
        then (Raise (HTTPError (Response.status_code res)), w1)
        else match Body.access_token (Response.json res) with
             | None => (Raise (KeyError "access_token"), w1)
             | Some tok => (Ok true, with_session w1 (refreshed (World.session w) tok))
             end
    end.
Proof.
  unfold _refresh_access_token. unfold bind at 1. unfold get_session at 1.
  destruct (Superset.refresh_token (World.session w)) as [rt|]; [|done].
  unfold bind at 1. rewrite request_with_single by done. cbv zeta.
  unfold outcome_of. destruct (is_error_status _); [done|].
  unfold bind at 1. destruct (Body.access_token _); [|done].
  reflexivity.
Qed.

(** X3. When the first answer has an error status (400 to 599) and no
    refresh applies (because the caller did not ask for one, the status is
    not 401, the body lacks the expiry marker, or the session holds no
    refresh token), the call raises [HTTPError] with that status after its
    single request; no refresh is sent and the session is untouched. *)
Theorem request_raises_without_retry server method endpoint refresh_token_if_needed
    headers request_kwargs w :
  let res := server (World.wire w)
               (first_request w method endpoint headers request_kwargs) in
  is_error_status (Response.status_code res) = true →
  refresh_token_if_needed = false
  ∨ Response.status_code res ≠ 401
  ∨ Body.msg (Response.json res) ≠ Some "Token has expired"
  ∨ Superset.refresh_token (World.session w) = None →
  request server method endpoint refresh_token_if_needed headers request_kwargs w
  = (Raise (HTTPError (Response.status_code res)),
     after_first_request w method endpoint headers request_kwargs).
Proof.
  intros res Herr Hwhy. unfold request.
  destruct (refresh_token_if_needed && (Response.status_code res =? 401)
            && token_has_expired (Response.json res)) eqn:Hcond.
  - apply andb_true_iff in Hcond as [[-> Hst]%andb_true_iff Hexp].
    apply Z.eqb_eq in Hst. apply bool_decide_eq_true in Hexp.
    destruct Hwhy as [?|[?|[?|Hnone]]]; [done..|].
    rewrite request_with_unfold. cbv zeta. fold res.
    rewrite Hst. unfold token_has_expired. rewrite bool_decide_eq_true_2 by done.
    cbn [andb Z.eqb Pos.eqb].
    unfold bind at 1. unfold bind at 1. rewrite refresh_access_token_run.
    cbn [after_first_request World.session]. rewrite Hnone.
    unfold ret at 1. rewrite request_tail_run. unfold outcome_of.
    by rewrite Herr, Hst.
  - rewrite request_with_single by done. fold res. unfold outcome_of. by rewrite Herr.
Qed.

Lemma request_raises_without_retry_witness :
  request (λ _ _, Response.mk 401 (Body.mk (Some "Invalid token") None None None))
    "GET" "/dataset/7" true None Kwargs.none example_world
  = (Raise (HTTPError 401), after_first_request example_world "GET" "/dataset/7" None
                               Kwargs.none).
Proof.
  apply (request_raises_without_retry
           (λ _ _, Response.mk 401 (Body.mk (Some "Invalid token") None None None))
           "GET" "/dataset/7" true None Kwargs.none example_world).
  - reflexivity.
  - right. right. left. discriminate.
Defined.

Lemma request_with_refreshing server r m e h k w :
  let res := server (World.wire w) (first_request w m e h k) in
  asks_for_refresh res →
  request_with server r m e true h k w
  = (let* res' :=
       (let* refreshed := r in
        if (refreshed : bool)
        then let* hs := _headers (default ∅ h) in
             requests_request server m (Superset.api_url (World.session w) +:+ e) hs
               Kwargs.none
        else ret res) in
     raise_for_status res';;; ret (Response.json res'))
      (after_first_request w m e h k).
Proof.
  intros res [Hst Hmsg]. rewrite request_with_unfold. cbv zeta. fold res.
  rewrite Hst. unfold token_has_expired. rewrite bool_decide_eq_true_2 by done.
  reflexivity.
Qed.

(** X4. When the refresh itself is answered with an error status, the call
    raises [HTTPError] with the status of the refresh answer; the original
    request is not retried and the access token stays as it was. *)
Theorem request_raises_when_refresh_fails server method endpoint headers request_kwargs
    w rt :
  let w1 := after_first_request w method endpoint headers request_kwargs in
  let res1 := server (World.wire w)
                (first_request w method endpoint headers request_kwargs) in
  let res2 := server (World.wire w1)
                (first_request w1 "POST" "/security/refresh" (refresh_headers rt)
                   Kwargs.none) in
  asks_for_refresh res1 →
  Superset.refresh_token (World.session w) = Some rt →
  is_error_status (Response.status_code res2) = true →
  request server method endpoint true headers request_kwargs w
  = (Raise (HTTPError (Response.status_code res2)), after_refresh_request w1 rt).
Proof.
  intros w1 res1 res2 Hask Hrt Herr. unfold request.
  rewrite request_with_refreshing by done. fold w1.
  unfold bind at 1. unfold bind at 1. rewrite refresh_access_token_run.
  replace (Superset.refresh_token (World.session w1)) with (Some rt) by done.
  cbv zeta. fold (refresh_headers rt). fold res2. by rewrite Herr.
Qed.

Lemma request_raises_when_refresh_fails_witness :
  request (λ _ _, Response.mk 401 (Body.mk (Some "Token has expired") None None None))
    "GET" "/dataset/7" true None Kwargs.none example_world
  = (Raise (HTTPError 401),
     after_refresh_request
       (after_first_request example_world "GET" "/dataset/7" None Kwargs.none)
       "refresh-me").
Proof.
  apply (request_raises_when_refresh_fails
           (λ _ _, Response.mk 401 (Body.mk (Some "Token has expired") None None None))
           "GET" "/dataset/7" None Kwargs.none example_world "refresh-me").
  - split; reflexivity.
  - reflexivity.
  - reflexivity.
Defined.

(** X5. When the refresh succeeds, the session holds the new access token
    and the call ends with the answer to the one retry: its body, or
    [HTTPError] with its status.  A retry that is answered 401 with the
    expiry marker again is not refreshed a second time. *)
Theorem request_ends_with_the_retry server method endpoint headers request_kwargs
    w rt tok :
  let w1 := after_first_request w method endpoint headers request_kwargs in
  let res1 := server (World.wire w)
                (first_request w method endpoint headers request_kwargs) in
  let res2 := server (World.wire w1)
                (first_request w1 "POST" "/security/refresh" (refresh_headers rt)
                   Kwargs.none) in
  let w2 := with_session (after_refresh_request w1 rt) (refreshed (World.session w) tok) in
  let retry := first_request w2 method endpoint headers Kwargs.none in
  asks_for_refresh res1 →
  Superset.refresh_token (World.session w) = Some rt →
  is_error_status (Response.status_code res2) = false →
  Body.access_token (Response.json res2) = Some tok →
  request server method endpoint true headers request_kwargs w
  = (outcome_of (server (World.wire w2) retry),
     World.mk (refreshed (World.session w) tok) (World.wire w2 ++ [retry])
       (World.calls w2) (World.slept w) (World.fs w)).
Proof.
  intros w1 res1 res2 w2 retry Hask Hrt Hok Htok. unfold request.
  rewrite request_with_refreshing by done. fold w1.
  unfold bind at 1. unfold bind at 1. rewrite refresh_access_token_run.
  replace (Superset.refresh_token (World.session w1)) with (Some rt) by done.
  cbv zeta. fold (refresh_headers rt). fold res2. rewrite Hok, Htok.
  fold (after_refresh_request w1 rt). change (World.session w1) with (World.session w).
  fold w2. unfold bind at 1. rewrite headers_run.
  unfold requests_request at 1. rewrite request_tail_run. reflexivity.
Qed.

Lemma request_ends_with_the_retry_witness :
  (request expiring_server "PUT" "/dataset/1?override_columns=false" true None
     example_write_kwargs example_world).1
  = Ok Body.empty.
Proof.
  rewrite (request_ends_with_the_retry expiring_server "PUT"
             "/dataset/1?override_columns=false" None example_write_kwargs
             example_world "refresh-me" "fresh").
  - reflexivity.
  - split; reflexivity.
  - reflexivity.
  - reflexivity.
  - reflexivity.
Defined.

(** ** Login *)

Lemma login_request_sent server api_url username password w :
  let w0 := with_session w (Superset.mk api_url username password None None) in
  request server "POST" "/security/login" false None (login_kwargs username password) w0
  = (outcome_of (server (World.wire w) (login_request api_url username password)),
     after_login_request w api_url username password None None).
Proof. intros w0. unfold request. by rewrite request_with_single. Qed.

(** X6. Creating the session sends exactly one request, the login, without
    an [Authorization] header and with the credentials, provider ["db"] and
    [refresh: True] as body; when it is answered without error status and
    with both tokens, the session holds them. *)
Theorem login_stores_both_tokens server api_url username password w access_token
    refresh_token :
  let res := server (World.wire w) (login_request api_url username password) in
  is_error_status (Response.status_code res) = false →
  Body.access_token (Response.json res) = Some access_token →
  Body.refresh_token (Response.json res) = Some refresh_token →
  Superset_init server api_url username password w
  = (Ok tt, after_login_request w api_url username password
              (Some access_token) (Some refresh_token)).
Proof.
  intros res Hok Hat Hrt. unfold Superset_init.
  unfold bind at 1. unfold set_session at 1.
  unfold _login. unfold bind at 1. unfold get_session at 1. cbn [World.session].
  unfold bind at 1.
  change (request server "POST" "/security/login" false None _ _)
    with (request server "POST" "/security/login" false None
            (login_kwargs username password)
            (with_session w (Superset.mk api_url username password None None))).
  rewrite login_request_sent. fold res. unfold outcome_of. rewrite Hok, Hat, Hrt.
  reflexivity.
Qed.

Lemma login_stores_both_tokens_witness :
  Superset_init login_server "http://superset/api/v1" (Some "admin") (Some "secret")
    example_world
  = (Ok tt, after_login_request example_world "http://superset/api/v1" (Some "admin")
              (Some "secret") (Some "token") (Some "refresh-me")).
Proof.
  apply (login_stores_both_tokens login_server "http://superset/api/v1" (Some "admin")
           (Some "secret") example_world "token" "refresh-me");
    reflexivity.
Defined.

(** X7. A login answered with an error status raises [HTTPError] with that
    status after the single login request: it is never refreshed or
    retried, whatever the body says, and the session is left without
    tokens. *)
Theorem login_failure_is_not_retried server api_url username password w :
  let res := server (World.wire w) (login_request api_url username password) in
  is_error_status (Response.status_code res) = true →
  Superset_init server api_url username password w
  = (Raise (HTTPError (Response.status_code res)),
     after_login_request w api_url username password None None).
Proof.
  intros res Herr. unfold Superset_init.
  unfold bind at 1. unfold set_session at 1.
  unfold _login. unfold bind at 1. unfold get_session at 1. cbn [World.session].
  unfold bind at 1.
  change (request server "POST" "/security/login" false None _ _)
    with (request server "POST" "/security/login" false None
            (login_kwargs username password)
            (with_session w (Superset.mk api_url username password None None))).
  rewrite login_request_sent. fold res. unfold outcome_of. by rewrite Herr.
Qed.

Lemma login_failure_is_not_retried_witness :
  Superset_init login_server "http://superset/api/v1" (Some "admin") None example_world
  = (Raise (HTTPError 401),
     after_login_request example_world "http://superset/api/v1" (Some "admin") None
       None None).
Proof.
  apply (login_failure_is_not_retried login_server "http://superset/api/v1" (Some "admin")
           None example_world).
  reflexivity.
Defined.

(** X8. [_headers] adds the session's bearer token to the caller's headers
    and never replaces one of them: every header of the caller is kept as
    it is, an [Authorization] header of the caller included; without an
    access token nothing is added.  The world is untouched. *)
Theorem headers_keep_the_callers (headers : gmap string string) w :
  ∃ hs,
    _headers headers w = (Ok hs, w)
    ∧ ∀ name,
        hs !! name
        = match headers !! name with
          | Some v => Some v
          | None =>
              if decide (name = "Authorization")
              then bearer <$> Superset.access_token (World.session w)
              else None
          end.
Proof.
  exists (auth_headers (World.session w) headers). split; [apply headers_run|].
  intros name. unfold auth_headers.
  destruct (Superset.access_token (World.session w)) as [tok|]; cbn [fmap option_fmap option_map].
  - rewrite lookup_union. destruct (headers !! name) as [v|] eqn:E.
    + by destruct ({[ "Authorization" := bearer tok ]} !! name).
    + rewrite (left_id None _). case_decide as Hn.
      * subst. by rewrite lookup_singleton_eq.
      * by rewrite lookup_singleton_ne.
  - destruct (headers !! name); [done|]. by case_decide.
Qed.

(** ** More on the paginated fetcher *)

(** X9. With filters, the fetcher returns exactly the records that are
    physical, belong to the requested database and whose key contains the
    filter text, in page-then-record order, provided there is at least one
    and their keys are pairwise distinct.  Records that are filtered out may
    repeat keys freely. *)
Theorem fetcher_returns_the_accepted_records server pages w fuel superset_db_id
    dataset_filter :
  serves_listing server (Superset.api_url (World.session w)) pages →
  Forall (λ p, p ≠ []) pages →
  (length pages < fuel)%nat →
  NoDup (dataset_key_of <$> accepted_records superset_db_id dataset_filter pages) →
  accepted_records superset_db_id dataset_filter pages ≠ [] →
  ∃ w',
    get_datasets_from_superset server fuel superset_db_id dataset_filter w
    = (Ok (dataset_dict_of <$> accepted_records superset_db_id dataset_filter pages), w').
Proof.
  intros Hserve Hne Hfuel Hnd Hsome.
  destruct (while_pages_run server superset_db_id dataset_filter pages 0%nat [] ∅ w fuel
              Hserve Hne Hfuel) as (w' & _ & _ & _ & Hrun).
  fold (accepted_records superset_db_id dataset_filter pages) in Hrun.
  assert (first_dup (dataset_key_of <$>
            accepted_records superset_db_id dataset_filter pages) ∅ = None) as Hdup
    by (apply first_dup_None; split; [done|set_solver]).
  rewrite Hdup in Hrun. exists w'.
  unfold get_datasets_from_superset, bind. rewrite Hrun. cbn [app].
  unfold py_assert. rewrite bool_decide_eq_true_2; [done|].
  intros Hnil. apply fmap_nil_inv in Hnil. done.
Qed.

Lemma fetcher_returns_the_accepted_records_witness :
  ∃ w',
    get_datasets_from_superset
      (listing_server [[example_orders; example_virtual]; [example_orders_copy];
                       [example_invoices]])
      4 (Some 1) (Some "sales") example_world
    = (Ok [dataset_dict_of example_orders], w').
Proof.
  apply (fetcher_returns_the_accepted_records
           (listing_server [[example_orders; example_virtual]; [example_orders_copy];
                            [example_invoices]])
           [[example_orders; example_virtual]; [example_orders_copy]; [example_invoices]]
           example_world 4%nat (Some 1) (Some "sales")).
  - apply listing_server_serves.
  - repeat constructor; discriminate.
  - simpl. lia.
  - vm_compute. repeat constructor. rewrite elem_of_nil. tauto.
  - discriminate.
Defined.

(** X10. When no listed record passes the filters (the listing is empty,
    holds only virtual datasets, or the filters match none), the fetcher
    raises the assertion ["There are no datasets in Superset!"]. *)
Theorem fetcher_rejects_when_nothing_is_accepted server pages w fuel superset_db_id
    dataset_filter :
  serves_listing server (Superset.api_url (World.session w)) pages →
  Forall (λ p, p ≠ []) pages →
  (length pages < fuel)%nat →
  accepted_records superset_db_id dataset_filter pages = [] →
  ∃ w',
    get_datasets_from_superset server fuel superset_db_id dataset_filter w
    = (Raise (AssertionError "There are no datasets in Superset!"), w').
Proof.
  intros Hserve Hne Hfuel Hnone.
  destruct (while_pages_run server superset_db_id dataset_filter pages 0%nat [] ∅ w fuel
              Hserve Hne Hfuel) as (w' & _ & _ & _ & Hrun).
  fold (accepted_records superset_db_id dataset_filter pages) in Hrun.
  rewrite Hnone in Hrun. exists w'.
  unfold get_datasets_from_superset, bind. by rewrite Hrun.
Qed.

Lemma fetcher_rejects_when_nothing_is_accepted_witness :
  ∃ w',
    get_datasets_from_superset (listing_server [[example_virtual]; [example_invoices]])
      3 None (Some "sales") example_world
    = (Raise (AssertionError "There are no datasets in Superset!"), w').
Proof.
  apply (fetcher_rejects_when_nothing_is_accepted
           (listing_server [[example_virtual]; [example_invoices]])
           [[example_virtual]; [example_invoices]] example_world 3%nat None (Some "sales")).
  - apply listing_server_serves.
  - repeat constructor; discriminate.
  - simpl. lia.
  - reflexivity.
Defined.

Lemma for_r_in_result_world sdb filt result ds ks w :
  (for_r_in_result sdb filt result ds ks w).2 = w.
Proof. rewrite for_r_in_result_run. cbv zeta. by destruct (first_dup _ _). Qed.





Lemma adds_puts_while_pages server sdb filt fuel :
  ∀ n ds ks, adds_puts [] (while_pages server fuel sdb filt n ds ks).
Proof.
  induction fuel as [|fuel IH]; intros n ds ks.
  - intros w. cbn. by rewrite app_nil_r.
  - cbn [while_pages].
    apply adds_puts_bind; [apply (adds_puts_request server "GET")|intros body].
    apply adds_puts_bind; [apply adds_puts_subscript|intros [[|r result]|]];
      [apply adds_puts_ret| |apply adds_puts_raise].
    apply adds_puts_bind; [|intros acc; apply IH].
    intros w. by rewrite for_r_in_result_world, app_nil_r.
Qed.

Lemma preserves_while_pages {X} (proj : World.t → X) server sdb filt fuel :
  ignores_traffic proj → ignores_access_token proj →
  ∀ n ds ks, preserves proj (while_pages server fuel sdb filt n ds ks).
Proof.
  intros Htraffic Htoken. induction fuel as [|fuel IH]; intros n ds ks; [by intros w|].
  cbn [while_pages].
  apply preserves_bind; [by apply preserves_request|intros body].
  apply preserves_bind; [apply preserves_subscript|intros [[|r result]|]];
    [apply preserves_ret| |apply preserves_raise].
  apply preserves_bind; [|intros acc; apply IH].
  intros w. by rewrite for_r_in_result_world.
Qed.

(** X12. The fetcher only reads: whatever the server answers and however
    the fetcher ends, it issues no [PUT] call, does not sleep, touches no
    file and leaves the session's URL, credentials and refresh token as
    they were. *)
Theorem fetcher_only_reads server fuel superset_db_id dataset_filter w :
  let w' := (get_datasets_from_superset server fuel superset_db_id dataset_filter w).2 in
  put_calls w' = put_calls w ∧ stable_part w' = stable_part w.
Proof.
  split.
  - rewrite <- (app_nil_r (put_calls w)).
    apply (adds_puts_bind []); [apply adds_puts_while_pages|intros ds].
    apply adds_puts_bind; [|intros _; apply adds_puts_ret].
    unfold py_assert. case_match; [apply adds_puts_ret|apply adds_puts_raise].
  - apply (preserves_bind stable_part).
    + apply preserves_while_pages;
        [apply stable_part_ignores_traffic|apply stable_part_ignores_access_token].
    + intros ds. frame.
Qed.

Lemma while_pages_fails server sdb filt status_code pages :
  is_error_status status_code = true →
  status_code ≠ 401 →
  ∀ n ds ks w fuel,
    serves_pages_then_status server (Superset.api_url (World.session w)) n pages
      status_code →
    Forall (λ p, p ≠ []) pages →
    (length pages < fuel)%nat →
    first_dup (dataset_key_of <$>
                 filter (λ r, passes_filters sdb filt r = true) (concat pages)) ks = None →
    ∃ w', while_pages server fuel sdb filt n ds ks w = (Raise (HTTPError status_code), w').
Proof.
  intros Herr H401. induction pages as [|p pages IH];
    intros n ds ks w fuel [Hpages Hfail] Hne Hfuel Hdup;
    (destruct fuel as [|fuel]; [simpl in Hfuel; lia|]); cbn [while_pages].
  - specialize (Hfail (World.wire w) (auth_headers (World.session w) ∅)).
    rewrite Nat.add_0_r in Hfail. unfold page_request in Hfail.
    unfold bind at 1. unfold request. rewrite request_with_single.
    + unfold outcome_of. unfold first_request. cbn [default from_option].
      rewrite Hfail, Herr. eauto.
    + unfold first_request. cbn [default from_option]. rewrite Hfail.
      apply Z.eqb_neq in H401. rewrite H401. by rewrite andb_false_r.
  - destruct (Hpages (World.wire w) (auth_headers (World.session w) ∅) 0%nat p)
      as [Hst Hres]; [done|].
    rewrite Nat.add_0_r in Hst, Hres. unfold page_request in Hst, Hres.
    unfold bind at 1. rewrite request_200 by done.
    unfold bind at 1. cbn [default from_option]. cbv beta iota delta [id].
    rewrite Hres. cbn [subscript]. unfold ret at 1.
    apply Forall_cons in Hne as [Hp Hne].
    destruct p as [|r p]; [done|].
    unfold bind at 1. rewrite for_r_in_result_run. cbv zeta.
    rewrite concat_cons, filter_app, fmap_app, first_dup_app in Hdup.
    destruct (first_dup _ ks) eqn:Hdup1; [done|]. cbn [fst snd].
    apply IH; [|done|simpl in Hfuel; lia|done].
    cbn [World.session]. split.
    + intros history headers i page Hi.
      replace (S n + i)%nat with (n + S i)%nat by lia. by apply Hpages.
    + intros history headers.
      replace (S n + length pages)%nat with (n + length ((r :: p) :: pages))%nat
        by (simpl; lia).
      apply Hfail.
Qed.

(** X13. An HTTP error while listing aborts the fetch: when the listing
    serves some pages and then answers the next page request with an error
    status other than 401, the fetcher raises [HTTPError] with that status
    and the datasets gathered so far are not returned. *)
Theorem fetcher_propagates_listing_error server pages status_code w fuel superset_db_id
    dataset_filter :
  serves_pages_then_status server (Superset.api_url (World.session w)) 0 pages
    status_code →
  is_error_status status_code = true →
  status_code ≠ 401 →
  Forall (λ p, p ≠ []) pages →
  (length pages < fuel)%nat →
  NoDup (dataset_key_of <$> accepted_records superset_db_id dataset_filter pages) →
  ∃ w',
    get_datasets_from_superset server fuel superset_db_id dataset_filter w
    = (Raise (HTTPError status_code), w').
Proof.
  intros Hserve Herr H401 Hne Hfuel Hnd.
  destruct (while_pages_fails server superset_db_id dataset_filter status_code pages
              Herr H401 0%nat [] ∅ w fuel Hserve Hne Hfuel) as [w' Hrun].
  - apply first_dup_None. split; [done|set_solver].
  - exists w'. unfold get_datasets_from_superset, bind. by rewrite Hrun.
Qed.

Lemma fetcher_propagates_listing_error_witness :
  ∃ w',
    get_datasets_from_superset (failing_listing_server [[example_orders]]) 2 None None
      example_world
    = (Raise (HTTPError 503), w').
Proof.
  apply (fetcher_propagates_listing_error (failing_listing_server [[example_orders]])
           [[example_orders]] 503 example_world 2%nat None None).
  - split.
    + intros history headers i page Hi. cbn. by rewrite Hi.
    + intros history headers. reflexivity.
  - reflexivity.
  - discriminate.
  - repeat constructor. discriminate.
  - simpl. lia.
  - vm_compute. repeat constructor. rewrite elem_of_nil. tauto.
Defined.

(** ** More on the source loader *)

Lemma lookup_foldl_add_table_fresh l (tables : gmap string Table.t) k :
  k ∉ (table_key_short_of ∘ snd) <$> l →
  foldl add_table tables l !! k = tables !! k.
Proof.
  revert tables. induction l as [|e l IH]; intros tables Hk; [done|].
  rewrite fmap_cons, not_elem_of_cons in Hk. destruct Hk as [Hne Hk].
  cbn [foldl]. rewrite IH by done. unfold add_table. by rewrite lookup_insert_ne.
Qed.

Lemma lookup_foldl_add_table l (tables : gmap string Table.t) e :
  NoDup ((table_key_short_of ∘ snd) <$> l) →
  e ∈ l →
  foldl add_table tables l !! table_key_short_of e.2 = Some (table_of e.2).
Proof.
  revert tables. induction l as [|e' l IH]; intros tables Hnd He.
  - by apply elem_of_nil in He.
  - rewrite fmap_cons in Hnd. apply NoDup_cons in Hnd as [Hfresh Hnd].
    cbn [foldl]. apply elem_of_cons in He as [->|He].
    + rewrite lookup_foldl_add_table_fresh by done.
      unfold add_table. by rewrite lookup_insert_eq.
    + by apply IH.
Qed.

(** X14. When the tables that pass the database filter have pairwise
    distinct keys and there is at least one, the loader returns a mapping
    whose keys are exactly their keys ["<schema>.<name>"], each bound to the
    columns and the description of its table; tables of other databases are
    absent.  The world is untouched. *)
Theorem loader_maps_keys_to_tables dbt_manifest dbt_db_name w :
  NoDup ((table_key_short_of ∘ snd) <$> selected_tables dbt_db_name dbt_manifest) →
  selected_tables dbt_db_name dbt_manifest ≠ [] →
  ∃ tables,
    get_tables_from_dbt dbt_manifest dbt_db_name w = (Ok tables, w)
    ∧ dom tables
      = list_to_set ((table_key_short_of ∘ snd) <$> selected_tables dbt_db_name dbt_manifest)
    ∧ ∀ e, e ∈ selected_tables dbt_db_name dbt_manifest →
        tables !! table_key_short_of e.2 = Some (table_of e.2).
Proof.
  intros Hnd Hsome.
  exists (foldl add_table ∅ (selected_tables dbt_db_name dbt_manifest)).
  assert (dom (foldl add_table ∅ (selected_tables dbt_db_name dbt_manifest))
          = list_to_set ((table_key_short_of ∘ snd)
                           <$> selected_tables dbt_db_name dbt_manifest)) as Hdom
    by (rewrite dom_foldl_add_table, dom_empty_L; set_solver).
  split; [|split; [done|]].
  - rewrite get_tables_from_dbt_run. cbv zeta.
    fold (selected_tables dbt_db_name dbt_manifest).
    replace (first_dup _ ∅) with (@None string)
      by (symmetry; apply first_dup_None; split; [done|set_solver]).
    rewrite bool_decide_eq_true_2; [done|].
    intros Hempty. rewrite Hempty, dom_empty_L in Hdom.
    destruct (selected_tables dbt_db_name dbt_manifest) as [|e l]; [done|].
    rewrite fmap_cons, list_to_set_cons in Hdom. set_solver.
  - intros e He. by apply lookup_foldl_add_table.
Qed.

Lemma loader_maps_keys_to_tables_witness :
  ∃ tables,
    get_tables_from_dbt example_manifest (Some "warehouse") example_world
    = (Ok tables, example_world)
    ∧ dom tables = {[ "sales.orders" ]}
    ∧ tables !! "sales.orders" = Some (table_of example_orders_table)
    ∧ tables !! "sales.customers" = None.
Proof.
  destruct (loader_maps_keys_to_tables example_manifest (Some "warehouse") example_world)
    as (tables & Hrun & Hdom & Hlookup).
  - vm_compute. repeat constructor. rewrite elem_of_nil. tauto.
  - discriminate.
  - exists tables. split; [exact Hrun|].
    assert (dom tables = {[ "sales.orders" ]}) as Hdom'
      by (rewrite Hdom; vm_compute; reflexivity).
    split; [exact Hdom'|]. split.
    + apply (Hlookup ("model.shop.orders", example_orders_table)).
      vm_compute. apply elem_of_cons. by left.
    + apply not_elem_of_dom. rewrite Hdom'. apply not_elem_of_singleton. discriminate.
Defined.

(** X15. When no manifest table passes the database filter, the loader
    raises the assertion ["Manifest is empty!"]. *)
Theorem loader_rejects_empty_selection dbt_manifest dbt_db_name w :
  selected_tables dbt_db_name dbt_manifest = [] →
  get_tables_from_dbt dbt_manifest dbt_db_name w
  = (Raise (AssertionError "Manifest is empty!"), w).
Proof.
  intros Hnone. rewrite get_tables_from_dbt_run. cbv zeta.
  fold (selected_tables dbt_db_name dbt_manifest). by rewrite Hnone.
Qed.

Lemma loader_rejects_empty_selection_witness :
  get_tables_from_dbt example_manifest (Some "staging") example_world
  = (Raise (AssertionError "Manifest is empty!"), example_world).
Proof.
  apply (loader_rejects_empty_selection example_manifest (Some "staging") example_world).
  reflexivity.
Defined.

(** ** Default descriptions in the manifest: [update_dbt_with_default_desc] *)

Lemma columns_extend_refl d cols : columns_extend d cols cols.
Proof. intros c. destruct (cols !! c); auto. Qed.

Lemma columns_extend_trans d cols1 cols2 cols3 :
  columns_extend d cols1 cols2 → columns_extend d cols2 cols3 →
  columns_extend d cols1 cols3.
Proof.
  intros H12 H23 c. specialize (H12 c). specialize (H23 c).
  destruct (cols1 !! c) as [x|].
  - by rewrite H12 in H23.
  - destruct H12 as [H12|(dflt & desc & Hd & Hdesc & H12)]; rewrite H12 in H23; [done|].
    right. by exists dflt, desc.
Qed.

Lemma columns_extend_insert d cols c dflt desc :
  cols !! c = None → d !! c = Some dflt → DefaultCol.desc dflt = Some desc →
  columns_extend d cols (<[ c := DbtColumn.mk (Some desc) ]> cols).
Proof.
  intros Hc Hd Hdesc c'. destruct (decide (c = c')) as [<-|Hne].
  - rewrite Hc. right. exists dflt, desc. by rewrite lookup_insert_eq.
  - rewrite lookup_insert_ne by done. destruct (cols !! c'); auto.
Qed.

(** The loop over the catalog columns of one table: it is pure; when it
    returns, the columns extend the old ones and cover every catalog column
    that has a default. *)
Lemma for_catalog_column_run d cs :
  ∀ cols w,
    (for_catalog_column d cs cols w).2 = w
    ∧ ∀ cols', (for_catalog_column d cs cols w).1 = Ok cols' →
        columns_extend d cols cols'
        ∧ ∀ c, c ∈ cs → is_Some (d !! c) → is_Some (cols' !! c).
Proof.
  induction cs as [|c cs IH]; intros cols w.
  - split; [done|]. intros cols' [= <-]. split; [apply columns_extend_refl|].
    intros c Hc. by apply elem_of_nil in Hc.
  - cbn [for_catalog_column].
    destruct (cols !! c) as [x|] eqn:Hc.
    + destruct (IH cols w) as [Hw Hok]. split; [done|].
      intros cols' Hrun. destruct (Hok cols' Hrun) as [Hext Hcov]. split; [done|].
      intros c' [->|Hc']%elem_of_cons Hd; [|by apply Hcov].
      specialize (Hext c). rewrite Hc in Hext. by rewrite Hext.
    + destruct (d !! c) as [dflt|] eqn:Hd.
      * unfold bind. destruct (DefaultCol.desc dflt) as [desc|] eqn:Hdesc; [|done].
        cbn [subscript]. unfold ret at 1.
        destruct (IH (<[ c := DbtColumn.mk (Some desc) ]> cols) w) as [Hw Hok].
        split; [done|].
        intros cols' Hrun. destruct (Hok cols' Hrun) as [Hext Hcov]. split.
        -- eapply columns_extend_trans; [by eapply columns_extend_insert|done].
        -- intros c' [->|Hc']%elem_of_cons Hd'; [|by apply Hcov].
           specialize (Hext c). rewrite lookup_insert_eq in Hext. by rewrite Hext.
      * destruct (IH cols w) as [Hw Hok]. split; [done|].
        intros cols' Hrun. destruct (Hok cols' Hrun) as [Hext Hcov]. split; [done|].
        intros c' [->|Hc']%elem_of_cons Hd'; [|by apply Hcov].
        rewrite Hd in Hd'. by destruct Hd'.
Qed.

Lemma alist_get_set {A} k (v : A) l k' :
  alist_get k' (alist_set k v l) = if String.eqb k k' then Some v else alist_get k' l.
Proof.
  induction l as [|[k0 v0] l IH]; cbn [alist_set alist_get].
  - by destruct (String.eqb k k').
  - destruct (String.eqb k0 k) eqn:E0; cbn [alist_get].
    + apply String.eqb_eq in E0 as ->. by destruct (String.eqb k k').
    + destruct (String.eqb k0 k') eqn:E1; [|done].
      apply String.eqb_eq in E1 as ->. rewrite String.eqb_sym in E0. by rewrite E0.
Qed.

Lemma table_extends_refl d t : table_extends d t t.
Proof. repeat split. apply columns_extend_refl. Qed.

Lemma table_extends_trans d t1 t2 t3 :
  table_extends d t1 t2 → table_extends d t2 t3 → table_extends d t1 t3.
Proof.
  intros (?&?&?&?&H12) (?&?&?&?&H23). repeat split; try congruence.
  by eapply columns_extend_trans.
Qed.

Lemma subset_extends_refl d l : subset_extends d l l.
Proof.
  induction l as [|e l IH]; constructor; [|exact IH].
  split; [done|apply table_extends_refl].
Qed.

Lemma subset_extends_trans d l1 l2 l3 :
  subset_extends d l1 l2 → subset_extends d l2 l3 → subset_extends d l1 l3.
Proof.
  intros H12. revert l3. induction H12 as [|e1 e2 l1 l2 [Hk H] _ IH]; intros l3 H23.
  - inversion H23. constructor.
  - inversion H23 as [|? e3 ? l3' [Hk' H'] Hrest]; subst. constructor.
    + split; [congruence|by eapply table_extends_trans].
    + by apply IH.
Qed.

Lemma subset_extends_set d l k t t' :
  alist_get k l = Some t → table_extends d t t' → subset_extends d l (alist_set k t' l).
Proof.
  induction l as [|[k0 t0] l IH]; intros Hget Hext; [done|].
  cbn [alist_get alist_set] in *. destruct (String.eqb k0 k).
  - injection Hget as ->. constructor; [done|apply subset_extends_refl].
  - constructor; [split; [done|apply table_extends_refl]|by apply IH].
Qed.

Lemma subset_extends_get d l l' k t :
  subset_extends d l l' → alist_get k l = Some t →
  ∃ t', alist_get k l' = Some t' ∧ table_extends d t t'.
Proof.
  induction 1 as [|[k1 t1] [k2 t2] l l' [Hk Hext] _ IH]; intros Hget; [done|].
  cbn in Hk. subst k2. cbn [alist_get] in *. destruct (String.eqb k1 k).
  - injection Hget as <-. by exists t2.
  - by apply IH.
Qed.

(** The loop over the catalog tables of one partition. *)
Lemma for_table_key_long_run d cat :
  ∀ man w,
    (for_table_key_long d cat man w).2 = w
    ∧ ∀ man', (for_table_key_long d cat man w).1 = Ok man' →
        subset_extends d man man' ∧ defaults_applied d cat man'.
Proof.
  induction cat as [|[k ct] cat IH]; intros man w.
  - split; [done|]. intros man' [= <-]. split; [apply subset_extends_refl|].
    intros key ct c Hin. by apply elem_of_nil in Hin.
  - destruct (alist_get k man) as [t|] eqn:Hget.
    2: { assert (for_table_key_long d ((k, ct) :: cat) man w = (Raise (KeyError k), w))
           as -> by (cbn [for_table_key_long]; unfold bind; by rewrite Hget).
         done. }
    destruct (for_catalog_column_run d (CatalogTable.columns ct) (ManifestTable.columns t) w)
      as [Hw Hcols].
    destruct (for_catalog_column d (CatalogTable.columns ct) (ManifestTable.columns t) w)
      as [[cols| |] w1] eqn:Hrun1; cbn [snd fst] in Hw, Hcols; subst w1.
    2: { assert (for_table_key_long d ((k, ct) :: cat) man w = (Raise e, w)) as ->
           by (cbn [for_table_key_long]; unfold bind; rewrite Hget; cbn [subscript];
               unfold ret at 1; by rewrite Hrun1).
         done. }
    2: { assert (for_table_key_long d ((k, ct) :: cat) man w = (OutOfFuel, w)) as ->
           by (cbn [for_table_key_long]; unfold bind; rewrite Hget; cbn [subscript];
               unfold ret at 1; by rewrite Hrun1).
         done. }
    destruct (Hcols cols eq_refl) as [Hext Hcov].
    set (t1 := ManifestTable.mk (ManifestTable.name t) (ManifestTable.schema t)
                 (ManifestTable.database t) cols (ManifestTable.description t)).
    assert (table_extends d t t1) as Ht1 by (by repeat split).
    assert (for_table_key_long d ((k, ct) :: cat) man w
            = for_table_key_long d cat (alist_set k t1 man) w) as ->
      by (cbn [for_table_key_long]; unfold bind; rewrite Hget; cbn [subscript];
          unfold ret at 1; by rewrite Hrun1).
    destruct (IH (alist_set k t1 man) w) as [Hw' Hok]. split; [done|].
    intros man' Hrun. destruct (Hok man' Hrun) as [Hsub Happ]. split.
    + eapply subset_extends_trans; [by eapply subset_extends_set|done].
    + intros key ct' c [[= -> ->]|Hin]%elem_of_cons Hc Hd; [|by eapply Happ].
      destruct (subset_extends_get d (alist_set k t1 man) man' k t1 Hsub)
        as (t' & Hget' & (_&_&_&_&Hext')).
      { by rewrite alist_get_set, String.eqb_refl. }
      exists t'. split; [done|].
      destruct (Hcov c Hc Hd) as [x Hx]. specialize (Hext' c).
      cbn [ManifestTable.columns t1] in Hext'. unfold t1 in Hext'.
      cbn [ManifestTable.columns] in Hext'. rewrite Hx in Hext'. by rewrite Hext'.
Qed.

Lemma update_dbt_with_default_desc_run m cat dd w :
  (update_dbt_with_default_desc m cat dd w).2 = w
  ∧ ∀ m', (update_dbt_with_default_desc m cat dd w).1 = Ok m' →
      (subset_extends (default_columns dd) (Manifest.nodes m) (Manifest.nodes m')
       ∧ defaults_applied (default_columns dd) (Catalog.nodes cat) (Manifest.nodes m'))
      ∧ (subset_extends (default_columns dd) (Manifest.sources m) (Manifest.sources m')
         ∧ defaults_applied (default_columns dd) (Catalog.sources cat) (Manifest.sources m')).
Proof.
  unfold update_dbt_with_default_desc. cbv zeta. unfold bind at 1 3.
  destruct (for_table_key_long_run (default_columns dd) (Catalog.nodes cat)
              (Manifest.nodes m) w) as [Hw1 Hok1].
  destruct (for_table_key_long _ (Catalog.nodes cat) _ w) as [[nodes| |] w1];
    cbn [fst snd] in Hw1, Hok1; subst w1; [|done..].
  unfold bind at 1 2.
  destruct (for_table_key_long_run (default_columns dd) (Catalog.sources cat)
              (Manifest.sources m) w) as [Hw2 Hok2].
  destruct (for_table_key_long _ (Catalog.sources cat) _ w) as [[sources| |] w2];
    cbn [fst snd] in Hw2, Hok2; subst w2; [|done..].
  split; [done|]. intros m' [= <-]. split; [by apply Hok1|by apply Hok2].
Qed.

(** X16. When [update_dbt_with_default_desc] returns, the manifest has the
    same tables under the same long keys in the same order, with name,
    schema, database and description unchanged; every column that was
    documented is exactly as it was, and a column that is new carries the
    description of its entry in the defaults map.  The world is untouched. *)
Theorem default_overlay_only_adds_defaults dbt_manifest dbt_catalog default_descriptions
    w updated w' :
  update_dbt_with_default_desc dbt_manifest dbt_catalog default_descriptions w
  = (Ok updated, w') →
  w' = w
  ∧ subset_extends (default_columns default_descriptions)
      (Manifest.nodes dbt_manifest) (Manifest.nodes updated)
  ∧ subset_extends (default_columns default_descriptions)
      (Manifest.sources dbt_manifest) (Manifest.sources updated).
Proof.
  intros Hrun.
  destruct (update_dbt_with_default_desc_run dbt_manifest dbt_catalog default_descriptions w)
    as [Hw Hok].
  rewrite Hrun in Hw, Hok. cbn [fst snd] in Hw, Hok.
  destruct (Hok updated eq_refl) as [[Hn _] [Hs _]]. done.
Qed.

Lemma default_overlay_only_adds_defaults_witness :
  ∃ updated,
    update_dbt_with_default_desc example_documented_manifest example_catalog
      example_id_defaults example_world = (Ok updated, example_world)
    ∧ subset_extends (default_columns example_id_defaults)
        (Manifest.nodes example_documented_manifest) (Manifest.nodes updated)
    ∧ subset_extends (default_columns example_id_defaults)
        (Manifest.sources example_documented_manifest) (Manifest.sources updated).
Proof.
  eexists. split; [vm_compute; reflexivity|].
  eapply (default_overlay_only_adds_defaults example_documented_manifest example_catalog
            example_id_defaults example_world _ example_world).
  vm_compute. reflexivity.
Defined.

(** X17. When [update_dbt_with_default_desc] returns, every column that the
    catalog lists for a table and that has an entry in the defaults map is
    documented in the manifest table of the same long key. *)
Theorem default_overlay_covers_catalog dbt_manifest dbt_catalog default_descriptions
    w updated w' :
  update_dbt_with_default_desc dbt_manifest dbt_catalog default_descriptions w
  = (Ok updated, w') →
  defaults_applied (default_columns default_descriptions)
    (Catalog.nodes dbt_catalog) (Manifest.nodes updated)
  ∧ defaults_applied (default_columns default_descriptions)
      (Catalog.sources dbt_catalog) (Manifest.sources updated).
Proof.
  intros Hrun.
  destruct (update_dbt_with_default_desc_run dbt_manifest dbt_catalog default_descriptions w)
    as [_ Hok].
  rewrite Hrun in Hok. cbn [fst] in Hok.
  destruct (Hok updated eq_refl) as [[_ Hn] [_ Hs]]. done.
Qed.

Lemma default_overlay_covers_catalog_witness :
  ∃ t,
    alist_get "model.shop.orders" (Manifest.nodes example_updated_manifest) = Some t
    ∧ is_Some (ManifestTable.columns t !! "id").
Proof.
  destruct (default_overlay_covers_catalog example_documented_manifest example_catalog
              example_id_defaults example_world example_updated_manifest example_world)
    as [Hnodes _].
  - vm_compute. reflexivity.
  - apply (Hnodes "model.shop.orders" (CatalogTable.mk "orders" ["id"; "amount"; "note"])
             "id").
    + apply elem_of_cons. by left.
    + apply elem_of_cons. by left.
    + by eexists.
Defined.





(** ** More on the reconciliation engine *)

(** X19. The delta has one column per target column, in the same order,
    with the same name and id: merging never adds, drops, reorders or
    renames a column. *)
Theorem merge_keeps_column_identities convert dataset tables defaults w cols sd os :
  Dataset.columns dataset = Some cols →
  Dataset.description dataset = Some sd →
  Dataset.owners dataset = Some os →
  ∃ dataset' columns_new,
    merge_columns_info convert dataset tables defaults w = (Ok dataset', w)
    ∧ Dataset.columns_new dataset' = Some columns_new
    ∧ ColumnNew.column_name <$> columns_new = SstColumn.column_name <$> cols
    ∧ ColumnNew.id <$> columns_new = SstColumn.id <$> cols.
Proof.
  intros Hc Hd Ho.
  eexists _, _. split; [by eapply merge_columns_info_run|].
  split; [reflexivity|].
  rewrite <- !list_fmap_compose. split; by apply list_fmap_ext.
Qed.

Lemma merge_keeps_column_identities_witness :
  ∃ dataset' columns_new,
    merge_columns_info example_convert example_dataset example_tables example_defaults
      example_world = (Ok dataset', example_world)
    ∧ Dataset.columns_new dataset' = Some columns_new
    ∧ ColumnNew.column_name <$> columns_new = ["amount"; "margin"]
    ∧ ColumnNew.id <$> columns_new = [1; 2].
Proof.
  apply (merge_keeps_column_identities example_convert example_dataset example_tables
           example_defaults example_world [example_amount; example_margin] (Some "old")
           [Owner.mk 1]);
    reflexivity.
Defined.

(** X20. For a physical column without a source description (no matched
    table, no such column in it, or a column entry without description),
    the merged description is the plain-text conversion of the default
    description of that column name when there is one, and the column's
    current description otherwise. *)
Theorem merge_falls_back_to_default convert dataset tables defaults w cols sd os i c :
  Dataset.columns dataset = Some cols →
  Dataset.description dataset = Some sd →
  Dataset.owners dataset = Some os →
  cols !! i = Some c →
  is_physical c →
  source_description tables (Dataset.key dataset) (SstColumn.column_name c) = None →
  ∃ dataset' columns_new,
    merge_columns_info convert dataset tables defaults w = (Ok dataset', w)
    ∧ Dataset.columns_new dataset' = Some columns_new
    ∧ columns_new !! i
      = Some (ColumnNew.mk (SstColumn.column_name c) (SstColumn.id c)
                match default_description defaults (SstColumn.column_name c) with
                | Some d => Some (convert d)
                | None => SstColumn.description c
                end).
Proof.
  intros Hc Hd Ho Hi Hphys Hsrc.
  eexists _, _. split; [by eapply merge_columns_info_run|].
  split; [reflexivity|].
  rewrite list_lookup_fmap, Hi. cbn [fmap option_fmap option_map].
  unfold column_new_of. rewrite bool_decide_eq_true_2 by exact Hphys.
  unfold source_description in Hsrc. rewrite Hsrc. reflexivity.
Qed.

Lemma merge_falls_back_to_default_witness :
  ∃ dataset' columns_new,
    merge_columns_info example_convert example_dataset ∅ example_defaults example_world
    = (Ok dataset', example_world)
    ∧ Dataset.columns_new dataset' = Some columns_new
    ∧ columns_new !! 0%nat = Some (ColumnNew.mk "amount" 1 (Some "Default amount")).
Proof.
  apply (merge_falls_back_to_default example_convert example_dataset ∅ example_defaults
           example_world [example_amount; example_margin] (Some "old") [Owner.mk 1]
           0%nat example_amount);
    try reflexivity.
  right. reflexivity.
Defined.

Lemma column_new_of_written convert dbt_columns defaults c :
  column_new_of convert dbt_columns defaults
    (written_column c (column_new_of convert dbt_columns defaults c))
  = column_new_of convert dbt_columns defaults c.
Proof.
  unfold column_new_of, written_column. cbn.
  case_bool_decide; [|done].
  destruct (dbt_columns !! SstColumn.column_name c ≫= DbtColumn.description); [done|].
  by destruct (defaults !! SstColumn.column_name c ≫= DefaultCol.desc).
Qed.

Lemma column_old_of_written convert dbt_columns defaults c :
  column_old_of (written_column c (column_new_of convert dbt_columns defaults c))
  = column_new_of convert dbt_columns defaults c.
Proof. done. Qed.

Lemma zip_written_columns convert dbt_columns defaults cols :
  zip_with written_column cols (column_new_of convert dbt_columns defaults <$> cols)
  = (λ c, written_column c (column_new_of convert dbt_columns defaults c)) <$> cols.
Proof. induction cols as [|c cols IH]; [done|]. cbn. by rewrite IH. Qed.

(** X21. A whole pass is idempotent: when the delta of a merged dataset has
    been written and the dataset is read back, merging it again with the
    same source tables and defaults gives the same delta, and the writer
    then does nothing.  This needs no assumption on the plain-text
    conversion. *)
Theorem second_pass_writes_nothing server convert dataset tables defaults pause w w'
    cols sd os merged :
  Dataset.columns dataset = Some cols →
  Dataset.description dataset = Some sd →
  Dataset.owners dataset = Some os →
  merge_columns_info convert dataset tables defaults w = (Ok merged, w) →
  ∃ merged',
    merge_columns_info convert (read_after_write merged) tables defaults w'
    = (Ok merged', w')
    ∧ Dataset.columns_new merged' = Dataset.columns_new merged
    ∧ Dataset.description_new merged' = Dataset.description_new merged
    ∧ Dataset.owners_new merged' = Dataset.owners_new merged
    ∧ put_descriptions_to_superset server merged' pause w' = (Ok tt, w').
Proof.
  intros Hc Hd Ho Hmerge.
  rewrite (merge_columns_info_run convert dataset tables defaults w cols sd os) in Hmerge
    by done.
  injection Hmerge as <-.
  set (dbt_columns := default ∅ (Table.columns <$> tables !! Dataset.key dataset)).
  set (defs := default_columns defaults).
  set (description_new := match tables !! Dataset.key dataset ≫= Table.description with
                          | Some d => Some (convert d)
                          | None => sd
                          end).
  set (merged := Dataset.mk _ _ _ _ _ _ _ _).
  set (cols' := (λ c, written_column c (column_new_of convert dbt_columns defs c)) <$> cols).
  assert (Dataset.columns (read_after_write merged) = Some cols') as Hc'
    by (cbn; by rewrite zip_written_columns).
  eexists. split.
  { apply (merge_columns_info_run convert (read_after_write merged) tables defaults w'
             cols' description_new os); [exact Hc'|reflexivity..]. }
  assert (column_new_of convert dbt_columns defs <$> cols'
          = column_new_of convert dbt_columns defs <$> cols) as Hsame.
  { unfold cols'. rewrite <- list_fmap_compose. apply list_fmap_ext.
    intros i c _. apply column_new_of_written. }
  change (Dataset.key (read_after_write merged)) with (Dataset.key dataset).
  fold dbt_columns defs. rewrite Hsame.
  subst merged. cbn [Dataset.columns_new Dataset.description_new Dataset.owners_new].
  assert (match tables !! Dataset.key dataset ≫= Table.description with
          | Some d => Some (convert d)
          | None => description_new
          end = description_new) as Hdesc
    by (unfold description_new; by destruct (tables !! Dataset.key dataset ≫= _)).
  rewrite Hdesc. do 3 (split; [reflexivity|]).
  eapply (put_descriptions_skips server _ pause w' _ _ _ _ cols'); try reflexivity.
  replace (column_old_of <$> cols') with (column_new_of convert dbt_columns defs <$> cols);
    [apply check_columns_equal_refl|].
  unfold cols'. rewrite <- list_fmap_compose. by apply list_fmap_ext.
Qed.

Lemma second_pass_writes_nothing_witness :
  ∃ merged',
    merge_columns_info example_convert (read_after_write example_merged)
      example_tables example_defaults example_world
    = (Ok merged', example_world)
    ∧ Dataset.columns_new merged' = Dataset.columns_new example_merged
    ∧ Dataset.description_new merged' = Dataset.description_new example_merged
    ∧ Dataset.owners_new merged' = Dataset.owners_new example_merged
    ∧ put_descriptions_to_superset accepting_server merged' 2 example_world
      = (Ok tt, example_world).
Proof.
  apply (second_pass_writes_nothing accepting_server example_convert example_dataset
           example_tables example_defaults 2 example_world example_world
           [example_amount; example_margin] (Some "old") [Owner.mk 1]);
    reflexivity.
Defined.

(** ** More on the writer *)



(** ** The loop over the matched datasets *)

Lemma try_except_never_raises_HTTPError {A} (body : M A) (a : A) :
  never_raises is_HTTPError (try_except_HTTPError body (λ _, ret a)).
Proof.
  intros w e Hraise [s ->]. unfold try_except_HTTPError in Hraise.
  destruct (body w) as [[a'|[]|] w']; cbn in Hraise; done.
Qed.

Lemma never_raises_bind {A B} P (m : M A) (k : A → M B) :
  never_raises P m → (∀ a, never_raises P (k a)) → never_raises P (bind m k).
Proof.
  intros Hm Hk w e. unfold bind. specialize (Hm w).
  destruct (m w) as [[a|e0|] w']; cbn in *; [apply Hk| |done].
  intros [= <-]. by apply Hm.
Qed.

(** X23. An [HTTPError] raised while one dataset is processed (refresh of
    its columns, reading them, or the write) never leaves the loop: if the
    loop over the matched datasets ends in an exception at all, it is not
    an [HTTPError]. *)
Theorem dataset_loop_never_raises_HTTPError server convert superset_refresh_columns
    superset_pause_after_update dbt_tables default_descriptions datasets w e :
  (for_sst_dataset server convert superset_refresh_columns superset_pause_after_update
     dbt_tables default_descriptions datasets w).1 = Raise e →
  ¬ is_HTTPError e.
Proof.
  revert w e. induction datasets as [|d datasets IH]; intros w e; [done|].
  cbn [for_sst_dataset].
  apply (never_raises_bind is_HTTPError); [|intros _ w' e'; apply IH].
  apply try_except_never_raises_HTTPError.
Qed.

Lemma dataset_loop_never_raises_HTTPError_witness :
  (for_sst_dataset accepting_server example_convert false 2 example_tables example_defaults
     [example_dataset] example_world).1 = Raise (KeyError "result")
  ∧ ¬ is_HTTPError (KeyError "result").
Proof.
  split; [reflexivity|].
  apply (dataset_loop_never_raises_HTTPError accepting_server example_convert false 2
           example_tables example_defaults [example_dataset] example_world).
  reflexivity.
Defined.

(** ** Fatal checks come before any write *)

Lemma never_raises_ok {A} P (m : M A) :
  (∀ w, ∃ a, (m w).1 = Ok a) → never_raises P m.
Proof. intros H w e He. destruct (H w) as [a Ha]. congruence. Qed.

Lemma never_raises_ret {A} P (a : A) : never_raises P (ret a).
Proof. by intros w e. Qed.

Lemma never_raises_raise {A} (P : exn → Prop) e : ¬ P e → never_raises P (@raise A e).
Proof. intros He w e' [= <-]. done. Qed.

Lemma never_raises_try_except {A} P (body : M A) handler :
  never_raises P body → (∀ s, never_raises P (handler s)) →
  never_raises P (try_except_HTTPError body handler).
Proof.
  intros Hb Hh w e. unfold try_except_HTTPError. specialize (Hb w).
  destruct (body w) as [[a|[]|] w']; cbn in *; try done; try apply Hb.
  apply Hh.
Qed.

Lemma not_assertion_HTTPError s : ¬ is_AssertionError (HTTPError s).
Proof. by intros [msg ?]. Qed.
Lemma not_assertion_KeyError k : ¬ is_AssertionError (KeyError k).
Proof. by intros [msg ?]. Qed.
Lemma not_assertion_TypeError : ¬ is_AssertionError TypeError.
Proof. by intros [msg ?]. Qed.
Lemma not_assertion_ValueError : ¬ is_AssertionError ValueError.
Proof. by intros [msg ?]. Qed.

Lemma no_assertion_get_session : never_raises is_AssertionError get_session.
Proof. by intros w e. Qed.
Lemma no_assertion_set_session s : never_raises is_AssertionError (set_session s).
Proof. by intros w e. Qed.
Lemma no_assertion_log_call m e k : never_raises is_AssertionError (log_call m e k).
Proof. by intros w e'. Qed.
Lemma no_assertion_requests_request server m u h k :
  never_raises is_AssertionError (requests_request server m u h k).
Proof. by intros w e. Qed.
Lemma no_assertion_headers h : never_raises is_AssertionError (_headers h).
Proof. intros w e. by rewrite headers_run. Qed.
Lemma no_assertion_subscript {A} k (o : option A) :
  never_raises is_AssertionError (subscript k o).
Proof. destruct o; [apply never_raises_ret|apply never_raises_raise, not_assertion_KeyError]. Qed.
Lemma no_assertion_raise_for_status r : never_raises is_AssertionError (raise_for_status r).
Proof.
  unfold raise_for_status.
  case_match; [apply never_raises_raise, not_assertion_HTTPError|apply never_raises_ret].
Qed.
Lemma no_assertion_pause_after_update secs :
  never_raises is_AssertionError (pause_after_update secs).
Proof.
  unfold pause_after_update, time_sleep. case_match; [apply never_raises_ret|].
  case_match; [apply never_raises_raise, not_assertion_ValueError|by intros w e].
Qed.

Create HintDb noassert.
#[local] Hint Resolve never_raises_ret no_assertion_get_session no_assertion_set_session
  no_assertion_log_call no_assertion_requests_request no_assertion_headers
  no_assertion_subscript no_assertion_raise_for_status no_assertion_pause_after_update
  not_assertion_HTTPError not_assertion_KeyError not_assertion_TypeError
  not_assertion_ValueError : noassert.

(** Walks through a computation none of whose steps raises an assertion. *)
Ltac no_assertion :=
  repeat first
    [ apply never_raises_bind; [|intros ?]
    | apply never_raises_try_except; [|intros ?]
    | apply never_raises_raise
    | progress eauto with noassert
    | match goal with |- never_raises _ (if ?b then _ else _) => destruct b end
    | match goal with |- never_raises _ (match ?b with _ => _ end) => destruct b end ].

Lemma no_assertion_request_with server r m e flag h k :
  never_raises is_AssertionError r →
  never_raises is_AssertionError (request_with server r m e flag h k).
Proof. intros Hr. unfold request_with. no_assertion. Qed.

Lemma no_assertion_request server m e flag h k :
  never_raises is_AssertionError (request server m e flag h k).
Proof.
  apply no_assertion_request_with. unfold _refresh_access_token.
  apply never_raises_bind; [no_assertion|intros self].
  destruct (Superset.refresh_token self); [|no_assertion].
  apply never_raises_bind; [apply no_assertion_request_with; no_assertion|intros res].
  no_assertion.
Qed.

Lemma no_assertion_dataset_loop server convert rc pause tables dd datasets :
  never_raises is_AssertionError
    (for_sst_dataset server convert rc pause tables dd datasets).
Proof.
  induction datasets as [|d datasets IH]; [apply never_raises_ret|].
  cbn [for_sst_dataset].
  apply never_raises_bind; [|intros _; exact IH].
  apply never_raises_try_except; [|intros s; apply never_raises_ret].
  apply never_raises_bind.
  { destruct rc; [|apply never_raises_ret].
    unfold refresh_columns_in_superset.
    apply never_raises_bind; [|intros _; apply no_assertion_pause_after_update].
    apply never_raises_bind; [apply no_assertion_request|intros _; apply never_raises_ret]. }
  intros _. apply never_raises_bind.
  { unfold add_superset_columns.
    apply never_raises_bind; [apply no_assertion_request|intros res].
    no_assertion. }
  intros d1. apply never_raises_bind.
  { unfold merge_columns_info. no_assertion. }
  intros d2. unfold put_descriptions_to_superset.
  do 5 (apply never_raises_bind; [apply no_assertion_subscript|intros ?]).
  destruct (_ || _); [|apply never_raises_ret].
  apply never_raises_bind; [apply no_assertion_request|intros _].
  apply no_assertion_pause_after_update.
Qed.

Lemma raises_before_put_bind {A B} P (m : M A) (k : A → M B) :
  adds_puts [] m → (∀ a, raises_before_put P (k a)) → raises_before_put P (bind m k).
Proof.
  intros Hm Hk w e. unfold bind. specialize (Hm w). rewrite app_nil_r in Hm.
  destruct (m w) as [[a|e0|] w']; cbn in *; [|by intros|done].
  intros He HP. by rewrite (Hk a w' e He HP).
Qed.

Lemma raises_before_put_never {A} P (m : M A) : never_raises P m → raises_before_put P m.
Proof. intros Hm w e He HP. by destruct (Hm w e He). Qed.

Lemma adds_puts_unchanged {A} (m : M A) : (∀ w, (m w).2 = w) → adds_puts [] m.
Proof. intros H w. by rewrite H, app_nil_r. Qed.

Lemma adds_puts_read_file path : adds_puts [] (read_file path).
Proof. apply adds_puts_unchanged. intros w. unfold read_file. by case_match. Qed.

Lemma adds_puts_write_file path f : adds_puts [] (write_file path f).
Proof. intros w. cbn. by rewrite app_nil_r. Qed.

Lemma adds_puts_py_assert b msg : adds_puts [] (py_assert b msg).
Proof. destruct b; [apply adds_puts_ret|apply adds_puts_raise]. Qed.

Lemma adds_puts_Superset_init server api_url username password :
  adds_puts [] (Superset_init server api_url username password).
Proof.
  unfold Superset_init, _login.
  apply adds_puts_bind; [apply adds_puts_set_session|intros _].
  apply adds_puts_bind; [apply adds_puts_get_session|intros self].
  apply adds_puts_bind; [apply (adds_puts_request server "POST")|intros res].
  keeps_puts.
Qed.

Lemma adds_puts_get_datasets server fuel sdb filt :
  adds_puts [] (get_datasets_from_superset server fuel sdb filt).
Proof.
  unfold get_datasets_from_superset.
  apply adds_puts_bind; [apply adds_puts_while_pages|intros ds].
  apply adds_puts_bind; [apply adds_puts_py_assert|intros _; apply adds_puts_ret].
Qed.

Lemma adds_puts_get_default_column_desc path :
  adds_puts [] (get_default_column_desc path).
Proof.
  unfold get_default_column_desc. destruct path as [p|]; [|apply adds_puts_ret].
  destruct (truthy _); [|apply adds_puts_ret].
  apply adds_puts_bind; [apply adds_puts_read_file|intros [| |]];
    [apply adds_puts_raise..|apply adds_puts_ret].
Qed.

Lemma adds_puts_update m cat dd : adds_puts [] (update_dbt_with_default_desc m cat dd).
Proof.
  apply adds_puts_unchanged. intros w.
  apply update_dbt_with_default_desc_run.
Qed.

Lemma adds_puts_get_tables m db : adds_puts [] (get_tables_from_dbt m db).
Proof.
  apply adds_puts_unchanged. intros w. rewrite get_tables_from_dbt_run. cbv zeta.
  destruct (first_dup _ _); [done|]. by destruct (bool_decide _).
Qed.

(** X24. The fatal checks come before any write: when [main] ends in an
    [AssertionError] (duplicate key or no dataset in Superset, duplicate
    key or empty manifest on the dbt side), no [PUT] call has been issued,
    whatever the server answered. *)
Theorem main_asserts_before_any_write server convert fuel dbt_project_dir dbt_db_name
    superset_url superset_db_id dataset_filter superset_refresh_columns
    superset_pause_after_update default_descriptions_yaml_path username password w e :
  let run := main server convert fuel dbt_project_dir dbt_db_name superset_url
               superset_db_id dataset_filter superset_refresh_columns
               superset_pause_after_update default_descriptions_yaml_path username
               password w in
  run.1 = Raise e →
  is_AssertionError e →
  put_calls run.2 = put_calls w.
Proof.
  cbv zeta. revert w e.
  change (raises_before_put is_AssertionError
            (main server convert fuel dbt_project_dir dbt_db_name superset_url
               superset_db_id dataset_filter superset_refresh_columns
               superset_pause_after_update default_descriptions_yaml_path username
               password)).
  unfold main.
  apply raises_before_put_bind.
  { destruct (bool_decide _); [apply adds_puts_ret|].
    apply adds_puts_bind; [apply adds_puts_raise|intros ?; apply adds_puts_ret]. }
  intros creds.
  apply raises_before_put_bind; [apply adds_puts_py_assert|intros _].
  apply raises_before_put_bind; [apply adds_puts_Superset_init|intros _].
  apply raises_before_put_bind; [apply adds_puts_get_datasets|intros sst_datasets].
  apply raises_before_put_bind; [apply adds_puts_read_file|intros f].
  apply raises_before_put_bind.
  { destruct f; [apply adds_puts_ret|apply adds_puts_raise..]. }
  intros dbt_manifest.
  apply raises_before_put_bind; [apply adds_puts_get_default_column_desc|intros dd].
  apply raises_before_put_bind.
  { destruct (bool_decide _); [|apply adds_puts_ret].
    apply adds_puts_bind; [apply adds_puts_read_file|intros f'].
    apply adds_puts_bind.
    { destruct f'; [apply adds_puts_raise|apply adds_puts_ret|apply adds_puts_raise]. }
    intros cat.
    apply adds_puts_bind; [apply adds_puts_update|intros updated].
    apply adds_puts_bind; [apply adds_puts_write_file|intros _; apply adds_puts_ret]. }
  intros dbt_manifest'.
  apply raises_before_put_bind; [apply adds_puts_get_tables|intros dbt_tables].
  apply raises_before_put_never, no_assertion_dataset_loop.
Qed.

Lemma main_asserts_before_any_write_witness :
  put_calls
    (main duplicate_listing_server example_convert 3 "." None "http://superset" None None
       false 2 None (Some "admin") (Some "secret") example_world).2
  = put_calls example_world.
Proof.
  apply (main_asserts_before_any_write duplicate_listing_server example_convert 3 "."
           None "http://superset" None None false 2 None (Some "admin") (Some "secret")
           example_world (AssertionError (duplicate_dataset_msg "sales.orders"))).
  - vm_compute. reflexivity.
  - by eexists.
Defined.

(** ** Files *)

Section main_frame.
Context {X : Type} (proj : World.t → X).
Hypothesis Htraffic : ignores_traffic proj.
Hypothesis Hsession : ignores_session proj.
Hypothesis Hslept : ignores_slept proj.
Variable server : Server.
Variable convert : string → string.

Lemma ignores_session_access_token : ignores_access_token proj.
Proof. intros u n p t r t' wi c sl f. apply Hsession. Qed.

Lemma preserves_unchanged {A} (m : M A) : (∀ w, (m w).2 = w) → preserves proj m.
Proof. intros H w. by rewrite H. Qed.

Lemma preserves_any_request m e flag h k : preserves proj (request server m e flag h k).
Proof. apply preserves_request; [done|apply ignores_session_access_token]. Qed.

Lemma preserves_Superset_init api_url username password :
  preserves proj (Superset_init server api_url username password).
Proof.
  unfold Superset_init, _login.
  apply preserves_bind; [by apply preserves_set_session|intros _].
  apply preserves_bind; [apply preserves_get_session|intros self].
  apply preserves_bind; [apply preserves_any_request|intros res].
  frame.
Qed.

Lemma preserves_get_datasets fuel sdb filt :
  preserves proj (get_datasets_from_superset server fuel sdb filt).
Proof.
  unfold get_datasets_from_superset.
  apply preserves_bind;
    [apply preserves_while_pages; [done|apply ignores_session_access_token]|intros ds].
  frame.
Qed.

Lemma preserves_get_default_column_desc path :
  preserves proj (get_default_column_desc path).
Proof. unfold get_default_column_desc. frame. Qed.

Lemma preserves_get_tables m db : preserves proj (get_tables_from_dbt m db).
Proof.
  apply preserves_unchanged. intros w. rewrite get_tables_from_dbt_run. cbv zeta.
  destruct (first_dup _ _); [done|]. by destruct (bool_decide _).
Qed.

Lemma preserves_update m cat dd : preserves proj (update_dbt_with_default_desc m cat dd).
Proof. apply preserves_unchanged. intros w. apply update_dbt_with_default_desc_run. Qed.

Lemma preserves_dataset_loop rc pause tables dd datasets :
  preserves proj (for_sst_dataset server convert rc pause tables dd datasets).
Proof.
  induction datasets as [|d datasets IH]; [apply preserves_ret|].
  cbn [for_sst_dataset].
  apply preserves_bind; [|intros _; exact IH].
  apply preserves_try_except; [|intros s; apply preserves_ret].
  apply preserves_bind.
  { destruct rc; [|apply preserves_ret]. unfold refresh_columns_in_superset.
    apply preserves_bind; [|intros _; by apply preserves_pause_after_update].
    apply preserves_bind; [apply preserves_any_request|intros _; apply preserves_ret]. }
  intros _. apply preserves_bind.
  { unfold add_superset_columns.
    apply preserves_bind; [apply preserves_any_request|intros res]. frame. }
  intros d1. apply preserves_bind.
  { unfold merge_columns_info. frame. }
  intros d2. unfold put_descriptions_to_superset.
  do 5 (apply preserves_bind; [apply preserves_subscript|intros ?]).
  destruct (_ || _); [|apply preserves_ret].
  apply preserves_bind; [apply preserves_any_request|intros _].
  by apply preserves_pause_after_update.
Qed.

(** [main] preserves the observation as soon as its one [write_file] does. *)
Lemma preserves_main fuel dbt_project_dir dbt_db_name superset_url superset_db_id
    dataset_filter rc pause yaml_path username password :
  (∀ f, preserves proj (write_file (dbt_project_dir +:+ "/target/manifest.json") f)) →
  preserves proj
    (main server convert fuel dbt_project_dir dbt_db_name superset_url superset_db_id
       dataset_filter rc pause yaml_path username password).
Proof.
  intros Hwrite. unfold main.
  apply preserves_bind; [frame|intros creds].
  apply preserves_bind; [apply preserves_py_assert|intros _].
  apply preserves_bind; [apply preserves_Superset_init|intros _].
  apply preserves_bind; [apply preserves_get_datasets|intros sst_datasets].
  apply preserves_bind; [apply preserves_read_file|intros f].
  apply preserves_bind; [frame|intros dbt_manifest].
  apply preserves_bind; [apply preserves_get_default_column_desc|intros dd].
  apply preserves_bind.
  { destruct (bool_decide _); [|apply preserves_ret].
    apply preserves_bind; [apply preserves_read_file|intros f'].
    apply preserves_bind; [frame|intros cat].
    apply preserves_bind; [apply preserves_update|intros updated].
    apply preserves_bind; [apply Hwrite|intros _; apply preserves_ret]. }
  intros dbt_manifest'.
  apply preserves_bind; [apply preserves_get_tables|intros dbt_tables].
  apply preserves_dataset_loop.
Qed.
End main_frame.

(** X25. The only file [main] ever writes is the manifest of the project:
    every other path holds after the run what it held before, whatever the
    server answers and however the run ends. *)
Theorem main_writes_no_file_but_the_manifest server convert fuel dbt_project_dir
    dbt_db_name superset_url superset_db_id dataset_filter superset_refresh_columns
    superset_pause_after_update default_descriptions_yaml_path username password w path :
  path ≠ dbt_project_dir +:+ "/target/manifest.json" →
  file_at path
    (main server convert fuel dbt_project_dir dbt_db_name superset_url superset_db_id
       dataset_filter superset_refresh_columns superset_pause_after_update
       default_descriptions_yaml_path username password w).2
  = file_at path w.
Proof.
  intros Hpath.
  apply (preserves_main (file_at path)); try done.
  intros f [s wi c sl fs]. unfold file_at. cbn. by rewrite lookup_insert_ne.
Qed.

Lemma main_writes_no_file_but_the_manifest_witness :
  file_at "./target/catalog.json"
    (main demo_server example_convert 5 "." None "http://superset" None None false 2
       (Some "defaults.yml") (Some "admin") (Some "secret") example_files_world).2
  = Some (FCatalog example_catalog).
Proof.
  rewrite (main_writes_no_file_but_the_manifest demo_server example_convert 5 "." None
             "http://superset" None None false 2 (Some "defaults.yml") (Some "admin")
             (Some "secret") example_files_world "./target/catalog.json").
  - reflexivity.
  - discriminate.
Defined.

Lemma get_default_column_desc_none path :
  truthy path = false → get_default_column_desc path = ret ∅.
Proof.
  intros H. unfold get_default_column_desc. destruct path as [p|]; [|done].
  by rewrite H.
Qed.

Lemma bind_ret_l {A B} (a : A) (k : A → M B) : bind (ret a) k = k a.
Proof. reflexivity. Qed.

(** X26. Without a default-descriptions file (no path, or an empty one)
    [main] writes no file at all: the manifest is not rewritten and the
    catalog is not even needed, whatever the server answers and however the
    run ends. *)
Theorem main_without_defaults_writes_no_file server convert fuel dbt_project_dir
    dbt_db_name superset_url superset_db_id dataset_filter superset_refresh_columns
    superset_pause_after_update default_descriptions_yaml_path username password w :
  truthy default_descriptions_yaml_path = false →
  World.fs
    (main server convert fuel dbt_project_dir dbt_db_name superset_url superset_db_id
       dataset_filter superset_refresh_columns superset_pause_after_update
       default_descriptions_yaml_path username password w).2
  = World.fs w.
Proof.
  intros Hpath. revert w.
  change (preserves World.fs
            (main server convert fuel dbt_project_dir dbt_db_name superset_url
               superset_db_id dataset_filter superset_refresh_columns
               superset_pause_after_update default_descriptions_yaml_path username
               password)).
  assert (ignores_traffic World.fs) as Htraffic by by intros s wi c sl f wi' c'.
  assert (ignores_session World.fs) as Hsession by by intros s s' wi c sl f.
  assert (ignores_slept World.fs) as Hslept by by intros s wi c sl sl' f.
  unfold main.
  apply preserves_bind; [frame|intros creds].
  apply preserves_bind; [apply preserves_py_assert|intros _].
  apply preserves_bind; [by apply preserves_Superset_init|intros _].
  apply preserves_bind; [by apply preserves_get_datasets|intros sst_datasets].
  apply preserves_bind; [apply preserves_read_file|intros f].
  apply preserves_bind; [frame|intros dbt_manifest].
  rewrite get_default_column_desc_none by done. rewrite bind_ret_l.
  rewrite bool_decide_eq_false_2 by (intros Hne; by apply Hne).
  rewrite bind_ret_l.
  apply preserves_bind; [by apply preserves_get_tables|intros dbt_tables].
  by apply preserves_dataset_loop.
Qed.

Lemma main_without_defaults_writes_no_file_witness :
  World.fs (demo_run demo_world).2 = World.fs demo_world.
Proof.
  apply (main_without_defaults_writes_no_file demo_server example_convert 5 "." None
           "http://superset" None None false 2 None (Some "admin") (Some "secret")
           demo_world).
  reflexivity.
Defined.

(** ** Every matched dataset gets its turn *)

Lemma grows_unchanged {A} (m : M A) :
  (∀ w, World.calls (m w).2 = World.calls w) → grows m.
Proof. intros H w. by rewrite H. Qed.

Lemma grows_ret {A} (a : A) : grows (ret a).
Proof. by apply grows_unchanged. Qed.

Lemma grows_raise {A} e : grows (@raise A e).
Proof. by apply grows_unchanged. Qed.

Lemma grows_bind {A B} (m : M A) (k : A → M B) :
  grows m → (∀ a, grows (k a)) → grows (bind m k).
Proof.
  intros Hm Hk w. unfold bind. specialize (Hm w).
  destruct (m w) as [[a| |] w']; cbn in *; [|done..].
  etrans; [exact Hm|apply Hk].
Qed.

Lemma grows_try_except {A} (body : M A) handler :
  grows body → (∀ s, grows (handler s)) → grows (try_except_HTTPError body handler).
Proof.
  intros Hb Hh w. unfold try_except_HTTPError. specialize (Hb w).
  destruct (body w) as [[a|[]|] w']; cbn in *; try done.
  etrans; [exact Hb|apply Hh].
Qed.

Lemma grows_subscript {A} k (o : option A) : grows (subscript k o).
Proof. destruct o; [apply grows_ret|apply grows_raise]. Qed.

Lemma grows_raise_for_status r : grows (raise_for_status r).
Proof. unfold raise_for_status. case_match; [apply grows_raise|apply grows_ret]. Qed.

Lemma grows_headers h : grows (_headers h).
Proof. apply grows_unchanged. intros w. by rewrite headers_run. Qed.

Lemma grows_log_call m e k : grows (log_call m e k).
Proof. intros w. cbn. by apply prefix_app_r. Qed.

Lemma grows_pause_after_update secs : grows (pause_after_update secs).
Proof.
  unfold pause_after_update, time_sleep. case_match; [apply grows_ret|].
  case_match; [apply grows_raise|by apply grows_unchanged].
Qed.

Create HintDb grow.
#[local] Hint Resolve grows_ret grows_raise grows_subscript grows_raise_for_status
  grows_headers grows_log_call grows_pause_after_update : grow.

Ltac growing :=
  repeat first
    [ apply grows_bind; [|intros ?]
    | apply grows_try_except; [|intros ?]
    | progress eauto with grow
    | by apply grows_unchanged
    | match goal with |- grows (if ?b then _ else _) => destruct b end
    | match goal with |- grows (match ?b with _ => _ end) => destruct b end ].

Lemma grows_request_with server r m e flag h k :
  grows r → grows (request_with server r m e flag h k).
Proof. intros Hr. unfold request_with. growing. Qed.

Lemma grows_request server m e flag h k : grows (request server m e flag h k).
Proof.
  apply grows_request_with. unfold _refresh_access_token.
  apply grows_bind; [growing|intros self].
  destruct (Superset.refresh_token self); [|growing].
  apply grows_bind; [apply grows_request_with; growing|intros res]. growing.
Qed.

(** A call of [Superset.request] is in the log from its start on. *)
Lemma request_logs_call server m e flag h k w :
  (World.calls w ++ [ApiCall.mk m e k])
    `prefix_of` World.calls (request server m e flag h k w).2.
Proof.
  unfold request. rewrite request_with_unfold. cbv zeta.
  match goal with
  | |- _ `prefix_of` World.calls (?rest (after_first_request w m e h k)).2 =>
      assert (grows rest) as Hrest
  end.
  { apply grows_bind; [|intros res'; growing].
    destruct (_ && _); [|apply grows_ret].
    apply grows_bind; [|intros [|]; growing].
    unfold _refresh_access_token.
    apply grows_bind; [growing|intros self].
    destruct (Superset.refresh_token self); [|growing].
    apply grows_bind; [apply grows_request_with; growing|intros res]. growing. }
  apply (Hrest (after_first_request w m e h k)).
Qed.

Lemma logs_first_request server m e flag h k :
  logs_first (ApiCall.mk m e k) (request server m e flag h k).
Proof. intros w. apply request_logs_call. Qed.

Lemma logs_first_bind {A B} c (m : M A) (k : A → M B) :
  logs_first c m → (∀ a, grows (k a)) → logs_first c (bind m k).
Proof.
  intros Hm Hk w. unfold bind. specialize (Hm w).
  destruct (m w) as [[a| |] w']; cbn in *; [|done..].
  etrans; [exact Hm|apply Hk].
Qed.

Lemma logs_first_try_except {A} c (body : M A) handler :
  logs_first c body → (∀ s, grows (handler s)) →
  logs_first c (try_except_HTTPError body handler).
Proof.
  intros Hb Hh w. unfold try_except_HTTPError. specialize (Hb w).
  destruct (body w) as [[a|[]|] w']; cbn in *; try done.
  etrans; [exact Hb|apply Hh].
Qed.

Lemma logs_first_elem_of {A} c (m : M A) w : logs_first c m → c ∈ World.calls (m w).2.
Proof.
  intros Hm. eapply elem_of_prefix; [|apply (Hm w)].
  apply elem_of_app. right. by apply list_elem_of_singleton.
Qed.

Section dataset_turn.
Variable server : Server.
Variable convert : string → string.

Lemma grows_put_descriptions d pause : grows (put_descriptions_to_superset server d pause).
Proof.
  unfold put_descriptions_to_superset.
  do 5 (apply grows_bind; [apply grows_subscript|intros ?]).
  destruct (_ || _); [|apply grows_ret].
  apply grows_bind; [apply grows_request|intros _; apply grows_pause_after_update].
Qed.

Lemma grows_merge d tables dd : grows (merge_columns_info convert d tables dd).
Proof. unfold merge_columns_info. growing. Qed.

Lemma grows_add_superset_columns d : grows (add_superset_columns server d).
Proof.
  unfold add_superset_columns.
  apply grows_bind; [apply grows_request|intros res]. growing.
Qed.

Lemma grows_dataset_loop rc pause tables dd datasets :
  grows (for_sst_dataset server convert rc pause tables dd datasets).
Proof.
  induction datasets as [|d datasets IH]; [apply grows_ret|].
  cbn [for_sst_dataset].
  apply grows_bind; [|intros _; exact IH].
  apply grows_try_except; [|intros s; apply grows_ret].
  apply grows_bind.
  { destruct rc; [|apply grows_ret]. unfold refresh_columns_in_superset.
    apply grows_bind; [|intros _; apply grows_pause_after_update].
    apply grows_bind; [apply grows_request|intros _; apply grows_ret]. }
  intros _. apply grows_bind; [apply grows_add_superset_columns|intros d1].
  apply grows_bind; [apply grows_merge|intros d2].
  apply grows_put_descriptions.
Qed.

(** Whatever happens to the dataset at the head of the list, its first
    call is made. *)
Lemma dataset_loop_logs_first_call rc pause tables dd d datasets :
  logs_first (first_call_for rc d)
    (for_sst_dataset server convert rc pause tables dd (d :: datasets)).
Proof.
  cbn [for_sst_dataset].
  apply logs_first_bind; [|intros _; apply grows_dataset_loop].
  apply logs_first_try_except; [|intros s; apply grows_ret].
  unfold first_call_for. destruct rc.
  - apply logs_first_bind.
    + apply logs_first_bind; [|intros _; apply grows_pause_after_update].
      unfold refresh_columns_in_superset.
      apply logs_first_bind; [apply logs_first_request|intros _; apply grows_ret].
    + intros _. apply grows_bind; [apply grows_add_superset_columns|intros d1].
      apply grows_bind; [apply grows_merge|intros d2]. apply grows_put_descriptions.
  - rewrite bind_ret_l.
    apply logs_first_bind.
    + unfold add_superset_columns.
      apply logs_first_bind; [apply logs_first_request|intros res]. growing.
    + intros d1. apply grows_bind; [apply grows_merge|intros d2].
      apply grows_put_descriptions.
Qed.
End dataset_turn.

(** X27. No matched dataset is skipped because an earlier one failed: when
    the loop over the matched datasets returns, the first call of every
    dataset in the list (its column refresh when that is switched on, the
    read of its columns otherwise) has been made. *)
Theorem every_dataset_gets_its_turn server convert superset_refresh_columns
    superset_pause_after_update dbt_tables default_descriptions datasets w d :
  (for_sst_dataset server convert superset_refresh_columns superset_pause_after_update
     dbt_tables default_descriptions datasets w).1 = Ok tt →
  d ∈ datasets →
  first_call_for superset_refresh_columns d
  ∈ World.calls
      (for_sst_dataset server convert superset_refresh_columns superset_pause_after_update
         dbt_tables default_descriptions datasets w).2.
Proof.
  revert w. induction datasets as [|d0 datasets IH]; intros w Hok Hin.
  - by apply elem_of_nil in Hin.
  - apply elem_of_cons in Hin as [->|Hin].
    + apply logs_first_elem_of, dataset_loop_logs_first_call.
    + cbn [for_sst_dataset] in *. unfold bind at 1 in Hok. unfold bind at 1.
      destruct (try_except_HTTPError _ _ w) as [[[]| |] w1]; [|done..].
      by apply IH.
Qed.

Lemma every_dataset_gets_its_turn_witness :
  ApiCall.mk "GET" "/dataset/10" Kwargs.none
  ∈ World.calls
      (for_sst_dataset flaky_server example_convert false 2 example_tables example_defaults
         [example_unreadable; example_readable] flaky_world).2.
Proof.
  apply (every_dataset_gets_its_turn flaky_server example_convert false 2 example_tables
           example_defaults [example_unreadable; example_readable] flaky_world
           example_readable).
  - vm_compute. reflexivity.
  - apply elem_of_cons. right. apply elem_of_cons. by left.
Defined.
